(** * Lead-data display state of the Hyundai car controller

    A shallow embedding of
    [opendbc/sunnypilot/car/hyundai/lead_data_ext.py]: the hysteresis
    primitive, the per-cycle controller [LeadDataCarController] and the
    two display snapshots [CanLeadData] and [CanFdLeadData], followed by
    the properties the specification states about them. *)

From Stdlib Require Import ZArith List Bool Lia.
From Stdlib Require Import Floats.SpecFloat.
From stdpp Require Import gmap.

Import ListNotations.
Local Open Scope Z_scope.

(** ** Python floats

    A Python [float] is an IEEE-754 binary64 number.  It is modelled by
    [spec_float] with precision 53 and maximal exponent 1024, every
    operation rounding to nearest, ties to even. *)
Module Float64.

Definition float := spec_float.

Definition prec : Z := 53.
Definition emax : Z := 1024.

Definition add : float -> float -> float := SFadd prec emax.
Definition sub : float -> float -> float := SFsub prec emax.
Definition mul : float -> float -> float := SFmul prec emax.
Definition div : float -> float -> float := SFdiv prec emax.
Definition neg : float -> float := SFopp.

(** [x == y], [x < y] and [x <= y]; all three are false on a NaN. *)
Definition eqb : float -> float -> bool := SFeqb.
Definition ltb : float -> float -> bool := SFltb.
Definition leb : float -> float -> bool := SFleb.

Definition is_nan (x : float) : bool :=
  match x with S754_nan => true | _ => false end.

(** [float(n)] for a Python [int]: the nearest double. *)
Definition of_Z (n : Z) : float := binary_normalize prec emax n 0 false.

(** The correctly rounded quotient of two integers, [b] non-zero. *)
Definition quotient (a b : Z) : float :=
  let sign := xorb (a <? 0) (b <? 0) in
  match a with
  | Z0 => S754_zero sign
  | _ =>
      let '(q, e, l) := SFdiv_core_binary prec emax (Z.abs a) 0 (Z.abs b) 0 in
      binary_round_aux prec emax sign q e l
  end.

(** A decimal literal [n / 10^k] of the source denotes the double
    nearest to that rational. *)
Definition literal (n : Z) (k : Z) : float := quotient n (10 ^ k).

(** The integer nearest to [m * 2^e], ties to the even one. *)
Definition round_half_even (m : positive) (e : Z) : Z :=
  match e with
  | Zneg p =>
      let d := 2 ^ Zpos p in
      let q := Zpos m / d in
      let r := Zpos m mod d in
      match 2 * r ?= d with
      | Lt => q
      | Gt => q + 1
      | Eq => if Z.even q then q else q + 1
      end
  | _ => Zpos m * 2 ^ e
  end.

(** Python's [max(a, b)] and [min(a, b)] on two arguments keep the first
    one unless the second is strictly greater (resp. smaller). *)
Definition max (a b : float) : float := if ltb a b then b else a.
Definition min (a b : float) : float := if ltb b a then b else a.

End Float64.

Abbreviation float := Float64.float.

(** ** Exceptions

    A Python call either returns a value or raises.  Only the built-in
    exceptions that the arithmetic of this module can raise are listed. *)
Inductive exception :=
  | ValueError
  | OverflowError
  | ZeroDivisionError.

Inductive result (A : Type) :=
  | Ok (a : A)
  | Raise (e : exception).

Arguments Ok {A} a.
Arguments Raise {A} e.

#[export] Instance result_ret : MRet result := fun A a => Ok a.

#[export] Instance result_bind : MBind result := fun A B k m =>
  match m with
  | Ok a => k a
  | Raise e => Raise e
  end.

(** [round(x)] with one argument: the nearest [int], ties to even;
    [ValueError] on a NaN and [OverflowError] on an infinity. *)
Definition py_round (x : float) : result Z :=
  match x with
  | S754_nan => Raise ValueError
  | S754_infinity _ => Raise OverflowError
  | S754_zero _ => Ok 0
  | S754_finite s m e => Ok (cond_Zopp s (Float64.round_half_even m e))
  end.

(** [a / b] on two [int]s: true division, correctly rounded. *)
Definition int_truediv (a b : Z) : result float :=
  if b =? 0 then Raise ZeroDivisionError
  else
    match Float64.quotient a b with
    | S754_infinity _ => Raise OverflowError
    | q => Ok q
    end.

(** ** Python equality

    [_hysteresis_update] is duck-typed: it only compares its first two
    arguments with [==].  The controller uses it at [int] and [bool]. *)
Class PyEq (A : Type) := py_eq : A -> A -> bool.

#[export] Instance PyEq_int : PyEq Z := Z.eqb.
#[export] Instance PyEq_bool : PyEq bool := Bool.eqb.

(** ** Display snapshots: [LeadData], [CanLeadData], [CanFdLeadData] *)
Inductive LeadDataClass :=
  | CanLeadData
  | CanFdLeadData.

Module LeadData.

Record t := mk {
  cls : LeadDataClass;
  object_gap : Z;
  lead_distance : float;
  lead_rel_speed : float;
  lead_visible : bool;
  target_distance : float;
  (* annotated [float] in the source, with the [int] default [0]; the
     controller stores [int]s there after its first update *)
  left_laneline : Z;
  right_laneline : Z
}.

(** [LeadData.__init__], called through the subclass [c]; an omitted
    keyword argument is [None] here and takes its default. *)
Definition init (c : LeadDataClass) (object_gap : Z) (lead_distance lead_rel_speed : float)
    (lead_visible : bool) (target_distance : float)
    (left_laneline right_laneline : option Z) : t :=
  {| cls := c;
     object_gap := object_gap;
     lead_distance := lead_distance;
     lead_rel_speed := lead_rel_speed;
     lead_visible := lead_visible;
     target_distance := target_distance;
     left_laneline := default 0 left_laneline;
     right_laneline := default 0 right_laneline |}.

(** The property [object_rel_gap], dispatched on the class. *)
Definition object_rel_gap (self : t) : Z :=
  match cls self with
  | CanLeadData =>
      if Float64.eqb (lead_distance self) (Float64.of_Z 0) then 0
      else if Float64.ltb (lead_rel_speed self) (Float64.neg (Float64.literal 2 1)) then 2
      else 1
  | CanFdLeadData =>
      if negb (lead_visible self) then 0
      else if Float64.ltb (lead_rel_speed self) (Float64.of_Z 0) then 2
      else 1
  end.

End LeadData.

(** ** The hysteresis primitive *)
Definition _hysteresis_update {A : Type} `{PyEq A}
    (current new_value : A) (counter threshold : Z) : A * Z :=
  if py_eq new_value current then (current, 0)
  else
    let counter := counter + 1 in
    if counter >=? threshold then (new_value, 0) else (current, counter).

(** ** Input structures

    The fields of [opendbc.car.structs] that this module reads.  A lane
    quality grade is an ordinal, a lane position a signed offset in
    metres. *)
Module structs.

Record Lead := {
  dRel : float;
  vRel : float;
  status : bool
}.

Record CarControlSP := {
  leadOne : Lead;
  leadTwo : Lead
}.

Record HudControl := {
  leadDistanceBars : Z
}.

Record CarControl := {
  hudControl : HudControl
}.

Record CarStateOut := {
  vEgo : float
}.

Record CarState := {
  out : CarStateOut;
  leftLanePosition : float;
  rightLanePosition : float;
  leftLaneQuality : Z;
  rightLaneQuality : Z
}.

Record CarParams := {
  flags : Z
}.

End structs.

#[export] Instance float_inhabited : Inhabited float := populate (S754_zero false).

(** ** The controller *)
Module LeadDataCarController.

Import structs.

Definition LEAD_HYSTERESIS_FRAMES : Z := 50.
Definition LANE_POSITION_HYSTERESIS_FRAMES : Z := 5.

(** The attributes set by [__init__].  [lead_one] and [lead_two] start as
    the empty dict, here [None].  The numeric attributes that start as the
    [int] 0 and later hold [float]s are [float]s throughout; the lane
    lines start as the float 15.0 and later hold [int]s, and are integers
    throughout (Python compares the two kinds by value). *)
Record t := mk {
  CP : CarParams;
  lead_one : option Lead;
  lead_two : option Lead;
  _lead_on_counter : Z;
  _lead_off_counter : Z;
  lead_visible : bool;
  gap_counter : Z;
  object_gap : Z;
  lead_distance : float;
  lead_rel_speed : float;
  target_distance : float;
  lane_frame_counter : Z;
  left_laneline : Z;
  right_laneline : Z
}.

Definition init (CP : CarParams) : t :=
  {| CP := CP;
     lead_one := None;
     lead_two := None;
     _lead_on_counter := 0;
     _lead_off_counter := 0;
     lead_visible := false;
     gap_counter := 0;
     object_gap := 0;
     lead_distance := Float64.of_Z 0;
     lead_rel_speed := Float64.of_Z 0;
     target_distance := Float64.of_Z 0;
     lane_frame_counter := 0;
     left_laneline := 15;
     right_laneline := 15 |}.

(** Attribute assignments [self.x = v]. *)
Definition set_lead_one v '(mk a _ c d e f g h i j k l m n) := mk a v c d e f g h i j k l m n.
Definition set_lead_two v '(mk a b _ d e f g h i j k l m n) := mk a b v d e f g h i j k l m n.
Definition set_lead_on_counter v '(mk a b c _ e f g h i j k l m n) := mk a b c v e f g h i j k l m n.
Definition set_lead_off_counter v '(mk a b c d _ f g h i j k l m n) := mk a b c d v f g h i j k l m n.
Definition set_lead_visible v '(mk a b c d e _ g h i j k l m n) := mk a b c d e v g h i j k l m n.
Definition set_gap_counter v '(mk a b c d e f _ h i j k l m n) := mk a b c d e f v h i j k l m n.
Definition set_object_gap v '(mk a b c d e f g _ i j k l m n) := mk a b c d e f g v i j k l m n.
Definition set_lead_distance v '(mk a b c d e f g h _ j k l m n) := mk a b c d e f g h v j k l m n.
Definition set_lead_rel_speed v '(mk a b c d e f g h i _ k l m n) := mk a b c d e f g h i v k l m n.
Definition set_target_distance v '(mk a b c d e f g h i j _ l m n) := mk a b c d e f g h i j v l m n.
Definition set_left_laneline v '(mk a b c d e f g h i j k l _ n) := mk a b c d e f g h i j k l v n.
Definition set_right_laneline v '(mk a b c d e f g h i j k l m _) := mk a b c d e f g h i j k l m v.

(** The bucket computed by [_update_object_gap] before the debounce. *)
Definition new_gap (lead_distance : option float) : Z :=
  match lead_distance with
  | None => 0
  | Some d =>
      if Float64.eqb d (Float64.of_Z 0) then 0
      else if Float64.ltb d (Float64.of_Z 20) then 2
      else if Float64.ltb d (Float64.of_Z 25) then 3
      else if Float64.ltb d (Float64.of_Z 30) then 4
      else 5
  end.

Definition _update_object_gap (lead_distance : option float) (self : t) : t :=
  let '(g, c) :=
    _hysteresis_update (object_gap self) (new_gap lead_distance) (gap_counter self)
      LEAD_HYSTERESIS_FRAMES in
  set_gap_counter c (set_object_gap g self).

Definition _update_lead_visible_hysteresis (raw_lead_visible : bool) (self : t) : t :=
  let counter := if raw_lead_visible then _lead_on_counter self else _lead_off_counter self in
  let '(v, counter) :=
    _hysteresis_update (lead_visible self) raw_lead_visible counter LEAD_HYSTERESIS_FRAMES in
  let self := set_lead_visible v self in
  if raw_lead_visible
  then set_lead_off_counter 0 (set_lead_on_counter counter self)
  else set_lead_on_counter 0 (set_lead_off_counter counter self).

Definition distance_setting_ttc_vals : gmap Z float :=
  {[ 1 := Float64.literal 12 1; 2 := Float64.literal 17 1; 3 := Float64.literal 20 1 ]}.

Definition _update_target_distance (vEgo : float) (distance_setting : Z) (self : t) : t :=
  let ttc_distance :=
    default (distance_setting_ttc_vals !!! 1) (distance_setting_ttc_vals !! distance_setting) in
  let stopping_distance :=
    Float64.max (Float64.literal 10 0) (Float64.mul vEgo ttc_distance) in
  set_target_distance
    (if Float64.eqb (lead_distance self) (Float64.of_Z 0) then stopping_distance
     else Float64.min stopping_distance (lead_distance self))
    self.

Definition scale_per_m : float := Float64.div (Float64.of_Z 15) (Float64.literal 17 1).

(** [abs(int(round(15 + (raw - 1.7) * scale_per_m)))], the expression that
    [_update_lane_positioning] evaluates for each side. *)
Definition lane_units (raw : float) : result Z :=
  v ← py_round
        (Float64.add (Float64.of_Z 15)
           (Float64.mul (Float64.sub raw (Float64.literal 17 1)) scale_per_m));
  mret (Z.abs v).

Definition in_2_3 (q : Z) : bool := (q =? 2) || (q =? 3).

Definition _update_lane_positioning (CS : CarState) (self : t) : result t :=
  let leftlaneraw := leftLanePosition CS in
  let rightlaneraw := rightLanePosition CS in
  let leftlanequal := leftLaneQuality CS in
  let rightlanequal := rightLaneQuality CS in
  leftlane ← lane_units leftlaneraw;
  rightlane ← lane_units rightlaneraw;
  let leftlane := if negb (in_2_3 leftlanequal) then 0 else leftlane in
  let rightlane := if negb (in_2_3 rightlanequal) then 0 else rightlane in
  let leftlane :=
    if Float64.eqb leftlaneraw (Float64.neg (Float64.literal 20248375 7))
    then 30 - rightlane else leftlane in
  let rightlane :=
    if Float64.eqb rightlaneraw (Float64.literal 20248375 7)
    then 30 - leftlane else rightlane in
  let '(leftlane, rightlane) :=
    if Float64.eqb leftlaneraw rightlaneraw && Float64.eqb rightlaneraw (Float64.of_Z 0)
    then (15, 15)
    else if Float64.eqb leftlaneraw (Float64.of_Z 0) then (30 - rightlane, rightlane)
    else if Float64.eqb rightlaneraw (Float64.of_Z 0) then (leftlane, 30 - leftlane)
    else (leftlane, rightlane) in
  let total := leftlane + rightlane in
  '(leftlane, rightlane) ←
    (if total =? 0 then mret (15, 15)
     else
       q ← int_truediv leftlane total;
       leftlane ← py_round (Float64.mul q (Float64.of_Z 30));
       mret (leftlane, 30 - leftlane));
  mret (set_right_laneline rightlane (set_left_laneline leftlane self)).

(** [update] mutates the controller; when the last step raises, the
    assignments made before it stay.  The result is the controller after
    the call together with the exception that left it, if any. *)
Definition update (CC_SP : CarControlSP) (CC : CarControl) (CS : CarState) (self : t)
    : t * option exception :=
  let self := set_lead_one (Some (leadOne CC_SP)) self in
  let self := set_lead_two (Some (leadTwo CC_SP)) self in
  let self := set_lead_distance (dRel (leadOne CC_SP)) self in
  let self := set_lead_rel_speed (vRel (leadOne CC_SP)) self in
  let self := _update_lead_visible_hysteresis (status (leadOne CC_SP)) self in
  let self := _update_object_gap (Some (lead_distance self)) self in
  let self := _update_target_distance (vEgo (out CS)) (leadDistanceBars (hudControl CC)) self in
  match _update_lane_positioning CS self with
  | Ok self' => (self', None)
  | Raise e => (self, Some e)
  end.

Section lead_data.

(** The bit [HyundaiFlags.CANFD] of [opendbc.car.hyundai.values]. *)
Variable HyundaiFlags_CANFD : Z.

Definition lead_data (self : t) : LeadData.t :=
  if negb (Z.land (flags (CP self)) HyundaiFlags_CANFD =? 0)
  then LeadData.init CanFdLeadData (object_gap self) (lead_distance self) (lead_rel_speed self)
         (lead_visible self) (target_distance self)
         (Some (left_laneline self)) (Some (right_laneline self))
  else LeadData.init CanLeadData (object_gap self) (lead_distance self) (lead_rel_speed self)
         (lead_visible self) (target_distance self) None None.

End lead_data.

End LeadDataCarController.

(** ** Auxiliary definitions used by the statements *)

(** The primitive run over the candidates of successive cycles. *)
Definition hysteresis_run {A : Type} `{PyEq A} (threshold : Z) (st : A * Z) (cands : list A)
    : A * Z :=
  fold_left (fun st x => _hysteresis_update (fst st) x (snd st) threshold) cands st.

(** The three input structures of one cycle, from their fields; the
    secondary lead repeats the primary one. *)
Definition cycle (dRel vRel : float) (status : bool) (vEgo : float) (leadDistanceBars : Z)
    (leftLanePosition rightLanePosition : float) (leftLaneQuality rightLaneQuality : Z)
    : structs.CarControlSP * structs.CarControl * structs.CarState :=
  let lead := {| structs.dRel := dRel; structs.vRel := vRel; structs.status := status |} in
  ({| structs.leadOne := lead; structs.leadTwo := lead |},
   {| structs.hudControl := {| structs.leadDistanceBars := leadDistanceBars |} |},
   {| structs.out := {| structs.vEgo := vEgo |};
      structs.leftLanePosition := leftLanePosition;
      structs.rightLanePosition := rightLanePosition;
      structs.leftLaneQuality := leftLaneQuality;
      structs.rightLaneQuality := rightLaneQuality |}).

(** One update call on the inputs of [cycle]. *)
Definition update_cycle
    (c : structs.CarControlSP * structs.CarControl * structs.CarState)
    (self : LeadDataCarController.t) : LeadDataCarController.t * option exception :=
  let '(CC_SP, CC, CS) := c in LeadDataCarController.update CC_SP CC CS self.

(** The controller after a sequence of update calls; a raised exception
    is dropped, as a caller that catches it and goes on would. *)
Definition update_all (self : LeadDataCarController.t)
    (cycles : list (structs.CarControlSP * structs.CarControl * structs.CarState))
    : LeadDataCarController.t :=
  fold_left (fun s c => fst (update_cycle c s)) cycles self.

(** The visibility counter of one direction. *)
Definition visible_counter (direction : bool) (self : LeadDataCarController.t) : Z :=
  if direction then LeadDataCarController._lead_on_counter self
  else LeadDataCarController._lead_off_counter self.

(** The time-to-collision factor as the specification words it. *)
Definition ttc_factor_spec (distance_setting : Z) : float :=
  if distance_setting =? 1 then Float64.literal 12 1
  else if distance_setting =? 2 then Float64.literal 17 1
  else if distance_setting =? 3 then Float64.literal 20 1
  else Float64.literal 12 1.

(** A lane value counts only when its quality grade is 2 or 3. *)
Definition trusted (quality : Z) (units : Z) : Z :=
  if negb (LeadDataCarController.in_2_3 quality) then 0 else units.

(** The last block of [_update_lane_positioning]: both sides rescaled so
    that they sum to 30. *)
Definition renormalise (leftlane rightlane : Z) : result (Z * Z) :=
  let total := leftlane + rightlane in
  if total =? 0 then mret (15, 15)
  else
    q ← int_truediv leftlane total;
    leftlane ← py_round (Float64.mul q (Float64.of_Z 30));
    mret (leftlane, 30 - leftlane).

(** The part of [_update_lane_positioning] after the quality filter, as a
    function of the two filtered values and of the five comparisons on
    the raw offsets. *)
Definition lane_core (leftlane rightlane : Z)
    (left_edge right_edge both_zero left_zero right_zero : bool) : result (Z * Z) :=
  let leftlane := if left_edge then 30 - rightlane else leftlane in
  let rightlane := if right_edge then 30 - leftlane else rightlane in
  let '(leftlane, rightlane) :=
    if both_zero then (15, 15)
    else if left_zero then (30 - rightlane, rightlane)
    else if right_zero then (leftlane, 30 - leftlane)
    else (leftlane, rightlane) in
  renormalise leftlane rightlane.

(** The amount by which the value that a shift record stands for may
    exceed its mantissa: 1 when the round or the sticky bit is set. *)
Definition slack (mrs : shr_record) : Z := if shr_r mrs || shr_s mrs then 1 else 0.

(** A float that is [+0.0] or a positive [m * 2^e] with [e <= 0] and
    [m * 2^e <= K]. *)
Definition bounded_by (K : Z) (x : float) : Prop :=
  match x with
  | S754_zero false => True
  | S754_finite false m e => e <= 0 /\ Zpos m <= K * 2 ^ (- e)
  | _ => False
  end.

(** The raw visibility flag and the pre-debounce gap bucket that one
    cycle's inputs carry. *)
Definition status_of (c : structs.CarControlSP * structs.CarControl * structs.CarState)
    : bool :=
  structs.status (structs.leadOne (fst (fst c))).

Definition gap_of (c : structs.CarControlSP * structs.CarControl * structs.CarState) : Z :=
  LeadDataCarController.new_gap (Some (structs.dRel (structs.leadOne (fst (fst c))))).

(** The two values that [_update_lane_positioning] computes from the car
    state, before it stores them. *)
Definition lane_values (CS : structs.CarState) : result (Z * Z) :=
  l ← LeadDataCarController.lane_units (structs.leftLanePosition CS);
  r ← LeadDataCarController.lane_units (structs.rightLanePosition CS);
  lane_core (trusted (structs.leftLaneQuality CS) l) (trusted (structs.rightLaneQuality CS) r)
    (Float64.eqb (structs.leftLanePosition CS) (Float64.neg (Float64.literal 20248375 7)))
    (Float64.eqb (structs.rightLanePosition CS) (Float64.literal 20248375 7))
    (Float64.eqb (structs.leftLanePosition CS) (structs.rightLanePosition CS)
     && Float64.eqb (structs.rightLanePosition CS) (Float64.of_Z 0))
    (Float64.eqb (structs.leftLanePosition CS) (Float64.of_Z 0))
    (Float64.eqb (structs.rightLanePosition CS) (Float64.of_Z 0)).

(** The controller after the statements of [update] that precede the
    lane step. *)
Definition lead_steps (CC_SP : structs.CarControlSP) (CC : structs.CarControl)
    (CS : structs.CarState) (self : LeadDataCarController.t) : LeadDataCarController.t :=
  LeadDataCarController._update_target_distance (structs.vEgo (structs.out CS))
    (structs.leadDistanceBars (structs.hudControl CC))
    (LeadDataCarController._update_object_gap (Some (structs.dRel (structs.leadOne CC_SP)))
       (LeadDataCarController._update_lead_visible_hysteresis
          (structs.status (structs.leadOne CC_SP))
          (LeadDataCarController.set_lead_rel_speed (structs.vRel (structs.leadOne CC_SP))
             (LeadDataCarController.set_lead_distance (structs.dRel (structs.leadOne CC_SP))
                (LeadDataCarController.set_lead_two (Some (structs.leadTwo CC_SP))
                   (LeadDataCarController.set_lead_one (Some (structs.leadOne CC_SP))
                      self)))))).

(** The stopping distance of [_update_target_distance]. *)
Definition stopping_distance (vEgo : float) (distance_setting : Z) : float :=
  Float64.max (Float64.literal 10 0) (Float64.mul vEgo (ttc_factor_spec distance_setting)).

(** The renormalisation returns every pair [(x, 30 - x)] with [x] within
    0..30 as it is. *)
Definition renormalise_fixes : bool :=
  forallb (fun x =>
    match renormalise x (30 - x) with
    | Ok (a, b) => (a =? x) && (b =? 30 - x)
    | Raise _ => false
    end) (seqZ 0 31).

(** * Properties *)

(** ** Sanity checks of the float model against known bit patterns *)
Example literal_1_7 : Float64.literal 17 1 = S754_finite false 7656119366529843 (-52).
Proof. vm_compute. reflexivity. Qed.

Example literal_19_999 : Float64.literal 19999 3 = S754_finite false 5629218059236409 (-48).
Proof. vm_compute. reflexivity. Qed.

Example literal_edge : Float64.literal 20248375 7 = S754_finite false 4559528705242903 (-51).
Proof. vm_compute. reflexivity. Qed.

Example literal_0_2 : Float64.literal 2 1 = S754_finite false 7205759403792794 (-55).
Proof. vm_compute. reflexivity. Qed.

Example scale_per_m_value :
  Float64.div (Float64.of_Z 15) (Float64.literal 17 1) = S754_finite false 4967205471364518 (-49).
Proof. vm_compute. reflexivity. Qed.

Example mul_10_1_7 :
  Float64.mul (Float64.of_Z 10) (Float64.literal 17 1) = Float64.of_Z 17.
Proof. vm_compute. reflexivity. Qed.

Example round_ties_to_even :
  py_round (Float64.literal 25 1) = Ok 2 /\ py_round (Float64.literal 35 1) = Ok 4 /\
  py_round (Float64.neg (Float64.literal 5 1)) = Ok 0 /\
  py_round (Float64.literal 125 1) = Ok 12.
Proof. vm_compute. auto. Qed.

Example int_truediv_examples :
  int_truediv 15 30 = Ok (Float64.literal 5 1) /\
  int_truediv 1 0 = Raise ZeroDivisionError /\
  (q ← int_truediv 5 12; py_round (Float64.mul q (Float64.of_Z 30))) = Ok 12.
Proof. vm_compute. auto. Qed.

(** ** Order on floats *)
Section FloatOrder.

Lemma SFcompare_antisym (x y : float) :
  SFcompare y x = option_map CompOpp (SFcompare x y).
Proof.
  destruct x as [sx|sx| |sx mx ex], y as [sy|sy| |sy my ey]; simpl;
    try destruct sx; try destruct sy; try reflexivity.
  - rewrite (Z.compare_antisym ey ex).
    destruct (Z.compare ey ex) eqn:E; simpl; try reflexivity.
    rewrite (Pos.compare_cont_antisym mx my Eq). simpl.
    now destruct (Pos.compare_cont Eq mx my).
  - rewrite (Z.compare_antisym ey ex).
    destruct (Z.compare ey ex) eqn:E; simpl; try reflexivity.
    rewrite (Pos.compare_cont_antisym mx my Eq). simpl. reflexivity.
Qed.

Lemma ltb_leb (x y : float) : Float64.ltb x y = true -> Float64.leb x y = true.
Proof.
  unfold Float64.ltb, Float64.leb, SFltb, SFleb.
  now destruct (SFcompare x y) as [[]|].
Qed.

Lemma ltb_not_nan (x y : float) :
  Float64.ltb x y = true -> Float64.is_nan x = false /\ Float64.is_nan y = false.
Proof.
  unfold Float64.ltb, SFltb. destruct x, y; simpl; auto; discriminate.
Qed.

Lemma compare_not_nan (x y : float) :
  Float64.is_nan x = false -> Float64.is_nan y = false -> exists c, SFcompare x y = Some c.
Proof.
  destruct x, y; simpl; intros; try discriminate; eauto.
Qed.

Lemma not_ltb_leb (x y : float) :
  Float64.is_nan x = false -> Float64.is_nan y = false ->
  Float64.ltb x y = false -> Float64.leb y x = true.
Proof.
  intros Hx Hy. unfold Float64.ltb, Float64.leb, SFltb, SFleb.
  rewrite (SFcompare_antisym x y).
  destruct (compare_not_nan x y Hx Hy) as [c ->]. now destruct c.
Qed.

Lemma leb_refl (x : float) : Float64.is_nan x = false -> Float64.leb x x = true.
Proof.
  unfold Float64.leb, SFleb. destruct x as [s|s| |s m e]; simpl; try discriminate;
    intros _; try destruct s; try reflexivity;
    rewrite Z.compare_refl, Pos.compare_cont_refl; reflexivity.
Qed.

Lemma eqb_zero (x : float) :
  Float64.eqb x (Float64.of_Z 0) = true <-> exists s, x = S754_zero s.
Proof.
  split.
  - destruct x as [s|s| |s m e]; simpl; try discriminate; eauto.
    + destruct s; discriminate.
    + destruct s; discriminate.
  - intros [s ->]. reflexivity.
Qed.

Lemma ltb_leb_trans (x y z : float) :
  Float64.ltb x y = true -> Float64.leb y z = true -> Float64.ltb x z = true.
Proof.
  unfold Float64.ltb, Float64.leb, SFltb, SFleb.
  destruct x as [sx|sx| |sx mx ex], y as [sy|sy| |sy my ey], z as [sz|sz| |sz mz ez]; simpl;
    try destruct sx; try destruct sy; try destruct sz; simpl;
    try (intros; discriminate); try (intros; reflexivity);
    change (Pos.compare_cont Eq ?a ?b) with (Pos.compare a b);
    destruct (Z.compare_spec ex ey), (Z.compare_spec ey ez), (Z.compare_spec ex ez);
    try lia; subst;
    try (intros; discriminate); try (intros; reflexivity);
    destruct (Pos.compare_spec mx my), (Pos.compare_spec my mz), (Pos.compare_spec mx mz);
    simpl; try lia; try (intros; discriminate); try (intros; reflexivity).
Qed.

(** [max(10., x)] is a number and at least 10, also on a NaN. *)
Lemma max_10_bounds (x : float) :
  let m := Float64.max (Float64.literal 10 0) x in
  Float64.is_nan m = false /\ Float64.leb (Float64.literal 10 0) m = true.
Proof.
  unfold Float64.max. destruct (Float64.ltb (Float64.literal 10 0) x) eqn:E.
  - split; [apply (ltb_not_nan _ _ E) | now apply ltb_leb].
  - split; vm_compute; reflexivity.
Qed.

End FloatOrder.

(** ** Bounds through rounding

    Rounding a non-negative value that is at most an integer [K < 2^53]
    gives a float that is at most [K]: a right shift never moves the
    value a record stands for above a multiple of the new unit. *)
Section FloatBounds.

Lemma shr_1_bound (mrs : shr_record) (K : Z) :
  0 <= shr_m mrs -> shr_m mrs + slack mrs <= 2 * K ->
  0 <= shr_m (shr_1 mrs) /\ shr_m (shr_1 mrs) + slack (shr_1 mrs) <= K.
Proof.
  destruct mrs as [m r s]. unfold slack. cbn [shr_m shr_r shr_s].
  destruct m as [|p|p]; [| |lia]; try destruct p; destruct r, s; cbn; lia.
Qed.

Lemma iter_shr_1_bound (n : positive) :
  forall (mrs : shr_record) (K : Z),
  0 <= shr_m mrs -> shr_m mrs + slack mrs <= 2 ^ Zpos n * K ->
  0 <= shr_m (SpecFloat.iter_pos shr_1 n mrs)
  /\ shr_m (SpecFloat.iter_pos shr_1 n mrs) + slack (SpecFloat.iter_pos shr_1 n mrs) <= K.
Proof.
  induction n as [n IH|n IH|]; intros mrs K H0 H; cbn [SpecFloat.iter_pos].
  - assert (E : 2 ^ Z.pos n~1 * K = 2 * (2 ^ Z.pos n * (2 ^ Z.pos n * K))).
    { replace (Z.pos n~1) with (Z.pos n + Z.pos n + 1) by lia.
      rewrite !Z.pow_add_r, Z.pow_1_r by lia. ring. }
    rewrite E in H.
    destruct (shr_1_bound mrs _ H0 H) as [A B].
    destruct (IH _ _ A B) as [C D]. now apply IH.
  - assert (E : 2 ^ Z.pos n~0 * K = 2 ^ Z.pos n * (2 ^ Z.pos n * K)).
    { replace (Z.pos n~0) with (Z.pos n + Z.pos n) by lia.
      rewrite !Z.pow_add_r by lia. ring. }
    rewrite E in H.
    destruct (IH _ _ H0 H) as [C D]. now apply IH.
  - apply shr_1_bound; [assumption|]. now rewrite Z.pow_1_r in H.
Qed.

Lemma Zdigits2_log2 (p : positive) : Zdigits2 (Zpos p) = Z.log2 (Zpos p) + 1.
Proof.
  cbn [Zdigits2]. induction p as [p IH|p IH|]; cbn [digits2_pos]; try reflexivity.
  - rewrite Pos2Z.inj_succ, IH. cbn [Z.log2]. destruct p; cbn; lia.
  - rewrite Pos2Z.inj_succ, IH. cbn [Z.log2]. destruct p; cbn; lia.
Qed.

Lemma Zdigits2_le (m k : Z) : 0 <= m -> 0 <= k -> m < 2 ^ k -> Zdigits2 m <= k.
Proof.
  intros Hm Hk Hlt. destruct m as [|p|p]; [cbn; lia| |lia].
  rewrite Zdigits2_log2. apply Z.log2_lt_pow2 in Hlt; lia.
Qed.

Lemma slack_of_loc (m : Z) (l : location) :
  shr_m (shr_record_of_loc m l) = m
  /\ slack (shr_record_of_loc m l) = match l with loc_Exact => 0 | _ => 1 end.
Proof. destruct l as [|[]]; cbn; auto. Qed.

(** A right shift to the exponent of the format keeps a record below an
    integer bound [K < 2^53]. *)
Lemma shr_fexp_bound (K m e : Z) (l : location) :
  1 <= K < 2 ^ 53 -> 0 <= m -> e <= 0 ->
  m + match l with loc_Exact => 0 | _ => 1 end <= K * 2 ^ (- e) ->
  let '(mrs, e') := shr_fexp Float64.prec Float64.emax m e l in
  0 <= shr_m mrs /\ e' <= 0 /\ shr_m mrs + slack mrs <= K * 2 ^ (- e').
Proof.
  intros HK Hm He Hb. unfold shr_fexp, shr.
  destruct (slack_of_loc m l) as [Em Es].
  destruct (fexp Float64.prec Float64.emax (Zdigits2 m + e) - e) as [|n|n] eqn:En.
  - rewrite Em, Es. auto.
  - assert (Hd : Zdigits2 m <= 53 - e).
    { apply Zdigits2_le; try lia.
      replace (53 - e) with (53 + - e) by lia. rewrite Z.pow_add_r by lia.
      assert (0 < 2 ^ (- e)) by (apply Z.pow_pos_nonneg; lia).
      destruct l; nia. }
    unfold fexp, emin, Float64.prec, Float64.emax in En.
    assert (He' : e + Z.pos n <= 0) by lia.
    assert (Hp : K * 2 ^ (- e) = 2 ^ Z.pos n * (K * 2 ^ (- (e + Z.pos n)))).
    { replace (- e) with (Z.pos n + - (e + Z.pos n)) by lia.
      rewrite Z.pow_add_r by lia. ring. }
    destruct (iter_shr_1_bound n (shr_record_of_loc m l) (K * 2 ^ (- (e + Z.pos n))))
      as [A B]; rewrite ?Em, ?Es; lia.
  - rewrite Em, Es. auto.
Qed.

Lemma round_nearest_even_bound (mrs : shr_record) :
  shr_m mrs <= round_nearest_even (shr_m mrs) (loc_of_shr_record mrs)
  <= shr_m mrs + slack mrs.
Proof.
  destruct mrs as [m [] []]; unfold slack; cbn; try destruct (Z.even m); lia.
Qed.

Lemma binary_round_aux_bound (K m e : Z) (l : location) :
  1 <= K < 2 ^ 53 -> 0 <= m -> e <= 0 ->
  m + match l with loc_Exact => 0 | _ => 1 end <= K * 2 ^ (- e) ->
  bounded_by K (binary_round_aux Float64.prec Float64.emax false m e l).
Proof.
  intros HK Hm He Hb. unfold binary_round_aux.
  pose proof (shr_fexp_bound K m e l HK Hm He Hb) as H1.
  destruct (shr_fexp Float64.prec Float64.emax m e l) as [mrs1 e1].
  destruct H1 as (A1 & B1 & C1).
  pose proof (round_nearest_even_bound mrs1) as R.
  assert (H2 := shr_fexp_bound K (round_nearest_even (shr_m mrs1) (loc_of_shr_record mrs1))
                  e1 loc_Exact HK).
  cbv beta iota in H2. specialize (H2 ltac:(lia) B1 ltac:(lia)).
  destruct (shr_fexp Float64.prec Float64.emax _ e1 loc_Exact) as [mrs2 e2].
  destruct H2 as (A2 & B2 & C2).
  destruct (shr_m mrs2) as [|p|p] eqn:E2; cbn; [exact I| |lia].
  destruct (Z.leb_spec e2 (Float64.emax - Float64.prec)) as [_|Hgt].
  - split; [assumption|]. unfold slack in C2. destruct (shr_r mrs2 || shr_s mrs2); lia.
  - unfold Float64.emax, Float64.prec in Hgt. lia.
Qed.

Lemma new_location_exact (t r : Z) :
  match new_location t r with loc_Exact => 0 | _ => 1 end = if r =? 0 then 0 else 1.
Proof.
  unfold new_location, new_location_even, new_location_odd.
  destruct (Z.even t), (r =? 0); reflexivity.
Qed.

(** The quotient of two integers [0 < x <= t] is a float at most 1. *)
Lemma quotient_bound (x t : Z) : 0 < x <= t -> bounded_by 1 (Float64.quotient x t).
Proof.
  intros Hxt. unfold Float64.quotient.
  destruct (Z.ltb_spec x 0); [lia|]. destruct (Z.ltb_spec t 0); [lia|]. cbn [xorb].
  destruct x as [|px|px]; [lia| |lia].
  rewrite !Z.abs_eq by lia. unfold SFdiv_core_binary.
  set (e' := Z.min _ _). assert (He : e' <= 0) by (subst e'; lia).
  replace (0 - 0 - e') with (- e') by lia.
  set (m' := match - e' with Z0 => _ | Zpos _ => _ | Zneg _ => _ end).
  assert (Hm : m' = Z.pos px * 2 ^ (- e')).
  { subst m'. destruct (- e') as [|s|s] eqn:Es; [cbn; lia| |lia].
    rewrite Z.shiftl_mul_pow2 by lia. reflexivity. }
  assert (Hp : 0 < 2 ^ (- e')) by (apply Z.pow_pos_nonneg; lia).
  pose proof (Z_div_mod m' t ltac:(lia)) as D. unfold Z.div_eucl in D |- *.
  fold (Z.div_eucl m' t) in D |- *.
  destruct (Z.div_eucl m' t) as [q r]. destruct D as [D1 D2].
  assert (Hq : 0 <= q) by nia.
  apply binary_round_aux_bound; try lia.
  rewrite new_location_exact. destruct (Z.eqb_spec r 0); nia.
Qed.

(** A float at most 1 times 30 is a float at most 30. *)
Lemma mul_30_bound (q : float) :
  bounded_by 1 q -> bounded_by 30 (Float64.mul q (Float64.of_Z 30)).
Proof.
  assert (E30 : Float64.of_Z 30 = S754_finite false 8444249301319680 (-48))
    by (vm_compute; reflexivity).
  rewrite E30. destruct q as [[]|[]| |[] m e]; cbn; try contradiction; [auto|].
  intros [He Hm]. apply binary_round_aux_bound; try lia.
  rewrite Pos2Z.inj_mul.
  replace (- (e + -48)) with (- e + 48) by lia. rewrite Z.pow_add_r by lia.
  assert (0 < 2 ^ (- e)) by (apply Z.pow_pos_nonneg; lia).
  change (2 ^ 48) with 281474976710656. lia.
Qed.

(** Rounding a float within 0..K to an integer stays within 0..K. *)
Lemma py_round_bound (K : Z) (x : float) :
  0 <= K -> bounded_by K x -> exists v, py_round x = Ok v /\ 0 <= v <= K.
Proof.
  intros HK. destruct x as [[]|[]| |[] m e]; cbn; try contradiction.
  - intros _. exists 0. split; [reflexivity | lia].
  - intros [He Hm]. eexists. split; [reflexivity|].
    unfold Float64.round_half_even. destruct e as [|p|p]; [cbn in *; lia|lia|].
    change (- Z.neg p) with (Z.pos p) in Hm.
    assert (Hd : 0 < 2 ^ Z.pos p) by (apply Z.pow_pos_nonneg; lia).
    pose proof (Z_div_mod_eq_full (Z.pos m) (2 ^ Z.pos p)) as D.
    pose proof (Z.mod_pos_bound (Z.pos m) (2 ^ Z.pos p) Hd) as B.
    set (d := 2 ^ Z.pos p) in *. set (q := Z.pos m / d) in *. set (r := Z.pos m mod d) in *.
    assert (0 <= q) by (subst q; apply Z.div_pos; lia).
    destruct (Z.compare_spec (2 * r) d); try destruct (Z.even q); nia.
Qed.

End FloatBounds.

(** ** The hysteresis primitive *)
Section Hysteresis.

Context {A : Type} `{PyEq A}.

Lemma hysteresis_same (current new_value : A) (counter threshold : Z) :
  py_eq new_value current = true ->
  _hysteresis_update current new_value counter threshold = (current, 0).
Proof. intros E. unfold _hysteresis_update. now rewrite E. Qed.

Lemma hysteresis_below (current new_value : A) (counter threshold : Z) :
  py_eq new_value current = false -> counter + 1 < threshold ->
  _hysteresis_update current new_value counter threshold = (current, counter + 1).
Proof.
  intros E Hlt. unfold _hysteresis_update. rewrite E.
  destruct (Z.geb_spec (counter + 1) threshold); [lia | reflexivity].
Qed.

Lemma hysteresis_adopt (current new_value : A) (counter threshold : Z) :
  py_eq new_value current = false -> threshold <= counter + 1 ->
  _hysteresis_update current new_value counter threshold = (new_value, 0).
Proof.
  intros E Hge. unfold _hysteresis_update. rewrite E.
  destruct (Z.geb_spec (counter + 1) threshold); [reflexivity | lia].
Qed.

Lemma hysteresis_counter_bound (current new_value : A) (counter threshold : Z) :
  1 <= threshold -> snd (_hysteresis_update current new_value counter threshold) < threshold.
Proof.
  intros HT. unfold _hysteresis_update.
  destruct (py_eq new_value current); simpl; [lia|].
  destruct (Z.geb_spec (counter + 1) threshold); simpl; lia.
Qed.

(** Candidates that all differ from [current] only advance the counter as
    long as it stays below the threshold. *)
Lemma hysteresis_run_pressure (threshold : Z) (current : A) (cands : list A) :
  forall counter : Z,
  Forall (fun x => py_eq x current = false) cands ->
  counter + Z.of_nat (length cands) < threshold ->
  hysteresis_run threshold (current, counter) cands
  = (current, counter + Z.of_nat (length cands)).
Proof.
  induction cands as [|x cands IH]; intros counter Hall Hlen.
  - simpl. f_equal. lia.
  - apply Forall_cons in Hall as [Hx Hall].
    change (length (x :: cands)) with (S (length cands)) in *.
    unfold hysteresis_run. simpl fold_left.
    rewrite hysteresis_below by (assumption || lia).
    fold (hysteresis_run threshold (current, counter + 1) cands).
    rewrite IH by (assumption || lia). f_equal. lia.
Qed.

(** C4: with threshold [T >= 1] and the counter at 0, [T - 1] cycles of
    candidates that differ from the current value followed by a candidate
    equal to it leave the current value in place with the counter at 0;
    [T] cycles of candidates that differ from it, whatever they are, adopt
    the candidate of cycle [T] and reset the counter to 0. *)
Theorem hysteresis_adoption (T : Z) (current : A) (cands : list A) (last : A) :
  1 <= T ->
  Z.of_nat (length cands) = T - 1 ->
  Forall (fun x => py_eq x current = false) cands ->
  (py_eq last current = true ->
   hysteresis_run T (current, 0) (cands ++ [last]) = (current, 0)) /\
  (py_eq last current = false ->
   hysteresis_run T (current, 0) (cands ++ [last]) = (last, 0)).
Proof.
  intros HT Hlen Hall.
  assert (Hrun : hysteresis_run T (current, 0) (cands ++ [last])
                 = _hysteresis_update current last (T - 1) T).
  { unfold hysteresis_run. rewrite fold_left_app.
    fold (hysteresis_run T (current, 0) cands).
    rewrite hysteresis_run_pressure by (assumption || lia).
    simpl. rewrite Hlen. reflexivity. }
  rewrite Hrun. split; intros E.
  - now apply hysteresis_same.
  - apply hysteresis_adopt; [assumption | lia].
Qed.

End Hysteresis.

(** C4 at threshold 3 on integers: two differing cycles and a revert keep
    7; three differing cycles with changing candidates adopt the third. *)
Lemma hysteresis_adoption_witness :
  hysteresis_run 3 (7, 0) ([1; 2] ++ [7]) = (7, 0) /\
  hysteresis_run 3 (7, 0) ([1; 2] ++ [3]) = (3, 0).
Proof.
  split.
  - apply (proj1 (hysteresis_adoption 3 7 [1; 2] 7 ltac:(lia) eq_refl
                    ltac:(repeat constructor))).
    reflexivity.
  - apply (proj2 (hysteresis_adoption 3 7 [1; 2] 3 ltac:(lia) eq_refl
                    ltac:(repeat constructor))).
    reflexivity.
Defined.

(** ** The controller: what one update call leaves in each attribute *)
Section Controller.

Import structs LeadDataCarController.

(** [_update_lane_positioning] in terms of [lane_core]. *)
Lemma update_lane_positioning_eq (CS : CarState) (self : t) :
  _update_lane_positioning CS self =
  (l ← lane_units (leftLanePosition CS);
   r ← lane_units (rightLanePosition CS);
   '(a, b) ← lane_core (trusted (leftLaneQuality CS) l) (trusted (rightLaneQuality CS) r)
      (Float64.eqb (leftLanePosition CS) (Float64.neg (Float64.literal 20248375 7)))
      (Float64.eqb (rightLanePosition CS) (Float64.literal 20248375 7))
      (Float64.eqb (leftLanePosition CS) (rightLanePosition CS)
       && Float64.eqb (rightLanePosition CS) (Float64.of_Z 0))
      (Float64.eqb (leftLanePosition CS) (Float64.of_Z 0))
      (Float64.eqb (rightLanePosition CS) (Float64.of_Z 0));
   mret (set_right_laneline b (set_left_laneline a self))).
Proof.
  unfold _update_lane_positioning, lane_core, renormalise, trusted.
  destruct (lane_units (leftLanePosition CS)) as [l|]; [|reflexivity].
  destruct (lane_units (rightLanePosition CS)) as [r|]; [|reflexivity].
  cbn -[Float64.eqb Float64.mul Float64.of_Z Float64.literal Float64.neg int_truediv py_round
        Z.add Z.sub Z.eqb in_2_3].
  repeat match goal with
         | |- context [if ?b then _ else _] => destruct b
         end; try reflexivity.
Qed.

(** A completed lane step only writes the two lane-line attributes, and
    the values it writes come from [lane_core]. *)
Lemma update_lane_positioning_ok (CS : CarState) (self self' : t) :
  _update_lane_positioning CS self = Ok self' ->
  exists l r a b,
    lane_units (leftLanePosition CS) = Ok l /\
    lane_units (rightLanePosition CS) = Ok r /\
    lane_core (trusted (leftLaneQuality CS) l) (trusted (rightLaneQuality CS) r)
      (Float64.eqb (leftLanePosition CS) (Float64.neg (Float64.literal 20248375 7)))
      (Float64.eqb (rightLanePosition CS) (Float64.literal 20248375 7))
      (Float64.eqb (leftLanePosition CS) (rightLanePosition CS)
       && Float64.eqb (rightLanePosition CS) (Float64.of_Z 0))
      (Float64.eqb (leftLanePosition CS) (Float64.of_Z 0))
      (Float64.eqb (rightLanePosition CS) (Float64.of_Z 0)) = Ok (a, b) /\
    self' = set_right_laneline b (set_left_laneline a self).
Proof.
  rewrite update_lane_positioning_eq.
  destruct (lane_units (leftLanePosition CS)) as [l|]; [|discriminate].
  destruct (lane_units (rightLanePosition CS)) as [r|]; [|discriminate].
  cbn [mbind result_bind].
  match goal with |- context [lane_core ?a ?b ?c ?d ?e ?f ?g] =>
    destruct (lane_core a b c d e f g) as [[x y]|] eqn:E end; [|discriminate].
  cbn. intros [= <-]. exists l, r, x, y. auto.
Qed.

(** A call to [update] ends in the controller reached by its first
    three steps, with at most the two lane-line attributes rewritten. *)
Lemma update_shape (CC_SP : CarControlSP) (CC : CarControl) (CS : CarState) (self : t) :
  let pre :=
    _update_target_distance (vEgo (out CS)) (leadDistanceBars (hudControl CC))
      (_update_object_gap (Some (dRel (leadOne CC_SP)))
         (_update_lead_visible_hysteresis (status (leadOne CC_SP))
            (set_lead_rel_speed (vRel (leadOne CC_SP))
               (set_lead_distance (dRel (leadOne CC_SP))
                  (set_lead_two (Some (leadTwo CC_SP))
                     (set_lead_one (Some (leadOne CC_SP)) self)))))) in
  update CC_SP CC CS self =
  match _update_lane_positioning CS pre with
  | Ok self' => (self', None)
  | Raise e => (pre, Some e)
  end.
Proof.
  destruct self. unfold update.
  cbn [set_lead_one set_lead_two set_lead_distance set_lead_rel_speed].
  unfold _update_lead_visible_hysteresis.
  destruct (_hysteresis_update _ _ _ _) as [v c].
  destruct (status (leadOne CC_SP)); reflexivity.
Qed.

(** The attributes that the visibility step writes. *)
Lemma visible_step_fields (raw : bool) (self : t) :
  let self' := _update_lead_visible_hysteresis raw self in
  (lead_visible self', visible_counter raw self')
  = _hysteresis_update (lead_visible self) raw (visible_counter raw self)
      LEAD_HYSTERESIS_FRAMES
  /\ visible_counter (negb raw) self' = 0
  /\ gap_counter self' = gap_counter self
  /\ object_gap self' = object_gap self
  /\ lead_distance self' = lead_distance self.
Proof.
  destruct self. unfold _update_lead_visible_hysteresis, visible_counter. cbn.
  destruct raw; cbn;
    match goal with |- context [_hysteresis_update ?a ?b ?c ?d] =>
      destruct (_hysteresis_update a b c d) as [v c'] end; cbn; auto.
Qed.

(** The attributes that the gap step writes. *)
Lemma gap_step_fields (d : option float) (self : t) :
  let self' := _update_object_gap d self in
  (object_gap self', gap_counter self')
  = _hysteresis_update (object_gap self) (new_gap d) (gap_counter self) LEAD_HYSTERESIS_FRAMES
  /\ lead_visible self' = lead_visible self
  /\ _lead_on_counter self' = _lead_on_counter self
  /\ _lead_off_counter self' = _lead_off_counter self
  /\ lead_distance self' = lead_distance self.
Proof.
  destruct self. unfold _update_object_gap. cbn.
  match goal with |- context [_hysteresis_update ?a ?b ?c ?d] =>
    destruct (_hysteresis_update a b c d) as [g c'] end; cbn; auto.
Qed.

(** The target-distance step and a completed lane step leave the
    debounced attributes alone. *)
Lemma target_step_keeps (v : float) (n : Z) (self : t) :
  let self' := _update_target_distance v n self in
  lead_visible self' = lead_visible self
  /\ _lead_on_counter self' = _lead_on_counter self
  /\ _lead_off_counter self' = _lead_off_counter self
  /\ gap_counter self' = gap_counter self
  /\ object_gap self' = object_gap self
  /\ lead_distance self' = lead_distance self.
Proof. destruct self. cbn. auto 7. Qed.

Lemma lane_write_keeps (a b : Z) (self : t) :
  let self' := set_right_laneline b (set_left_laneline a self) in
  lead_visible self' = lead_visible self
  /\ _lead_on_counter self' = _lead_on_counter self
  /\ _lead_off_counter self' = _lead_off_counter self
  /\ gap_counter self' = gap_counter self
  /\ object_gap self' = object_gap self
  /\ lead_distance self' = lead_distance self
  /\ target_distance self' = target_distance self
  /\ left_laneline self' = a
  /\ right_laneline self' = b.
Proof. destruct self. cbn. auto 10. Qed.

(** Every attribute but the lane lines is, after [update], what the
    first three steps made it. *)
Lemma update_keeps (CC_SP : CarControlSP) (CC : CarControl) (CS : CarState) (self : t) :
  let pre :=
    _update_target_distance (vEgo (out CS)) (leadDistanceBars (hudControl CC))
      (_update_object_gap (Some (dRel (leadOne CC_SP)))
         (_update_lead_visible_hysteresis (status (leadOne CC_SP))
            (set_lead_rel_speed (vRel (leadOne CC_SP))
               (set_lead_distance (dRel (leadOne CC_SP))
                  (set_lead_two (Some (leadTwo CC_SP))
                     (set_lead_one (Some (leadOne CC_SP)) self)))))) in
  let self' := fst (update CC_SP CC CS self) in
  lead_visible self' = lead_visible pre
  /\ _lead_on_counter self' = _lead_on_counter pre
  /\ _lead_off_counter self' = _lead_off_counter pre
  /\ gap_counter self' = gap_counter pre
  /\ object_gap self' = object_gap pre
  /\ lead_distance self' = lead_distance pre
  /\ target_distance self' = target_distance pre.
Proof.
  intros pre self'. subst self'. rewrite update_shape. fold pre.
  destruct (_update_lane_positioning CS pre) as [s|e] eqn:E; cbn [fst].
  - apply update_lane_positioning_ok in E as (l & r & a & b & _ & _ & _ & ->).
    destruct (lane_write_keeps a b pre) as (?&?&?&?&?&?&?&?&?). auto 8.
  - auto 8.
Qed.

Lemma visible_counter_eq (direction : bool) (s1 s2 : t) :
  _lead_on_counter s1 = _lead_on_counter s2 ->
  _lead_off_counter s1 = _lead_off_counter s2 ->
  visible_counter direction s1 = visible_counter direction s2.
Proof. unfold visible_counter. now destruct direction. Qed.

(** What [update] does to the visibility attributes. *)
Lemma visibility_debounce_aux (CC_SP : CarControlSP) (CC : CarControl) (CS : CarState)
    (self : t) :
  let raw := status (leadOne CC_SP) in
  let self' := fst (update CC_SP CC CS self) in
  (lead_visible self', visible_counter raw self')
  = _hysteresis_update (lead_visible self) raw (visible_counter raw self) 50
  /\ visible_counter (negb raw) self' = 0.
Proof.
  intros raw self'.
  destruct (update_keeps CC_SP CC CS self) as (Hv & Hon & Hoff & _).
  fold self' in Hv, Hon, Hoff.
  match type of Hv with _ = lead_visible (_update_target_distance ?v ?n ?s) =>
    destruct (target_step_keeps v n s) as (Tv & Ton & Toff & _) end.
  match type of Tv with _ = lead_visible (_update_object_gap ?d ?s) =>
    destruct (gap_step_fields d s) as (_ & Gv & Gon & Goff & _) end.
  match type of Gv with _ = lead_visible (_update_lead_visible_hysteresis ?r ?s) =>
    destruct (visible_step_fields r s) as (Vrun & Vzero & _);
    set (vis := _update_lead_visible_hysteresis r s) in * end.
  fold raw in Vrun, Vzero.
  assert (Hcnt : forall d, visible_counter d self' = visible_counter d vis).
  { intros d. apply visible_counter_eq; congruence. }
  split.
  - rewrite Hcnt. replace (lead_visible self') with (lead_visible vis) by congruence.
    rewrite Vrun. destruct self. reflexivity.
  - rewrite Hcnt. exact Vzero.
Qed.

(** C8: on every update call the visibility debounce is one run of the
    hysteresis primitive at threshold 50 on the counter of the direction
    of this cycle's raw flag (the on-counter when the flag is set, the
    off-counter otherwise); the counter of the other direction is 0
    afterwards, so one of the two counters is always 0 after the call. *)
Theorem visibility_debounce (CC_SP : CarControlSP) (CC : CarControl) (CS : CarState)
    (self : t) :
  let raw := status (leadOne CC_SP) in
  let self' := fst (update CC_SP CC CS self) in
  LEAD_HYSTERESIS_FRAMES = 50
  /\ (lead_visible self', visible_counter raw self')
     = _hysteresis_update (lead_visible self) raw (visible_counter raw self) 50
  /\ visible_counter (negb raw) self' = 0
  /\ (_lead_on_counter self' = 0 \/ _lead_off_counter self' = 0).
Proof.
  intros raw self'.
  destruct (visibility_debounce_aux CC_SP CC CS self) as (Hrun & Hzero).
  fold raw self' in Hrun, Hzero.
  repeat split; try assumption.
  unfold visible_counter in Hzero. destruct raw; cbn in Hzero; auto.
Qed.

(** C10: for a threshold of at least 1 the counter that the primitive
    returns is below the threshold, whatever non-negative counter it was
    given; so the gap counter and both visibility counters are below 50
    after every update call. *)
Theorem counters_below_threshold :
  (forall (A : Type) (E : PyEq A) (current new_value : A) (counter threshold : Z),
     1 <= threshold -> 0 <= counter ->
     snd (_hysteresis_update current new_value counter threshold) < threshold)
  /\ (forall (CC_SP : CarControlSP) (CC : CarControl) (CS : CarState) (self : t),
        let self' := fst (update CC_SP CC CS self) in
        gap_counter self' < 50
        /\ _lead_on_counter self' < 50
        /\ _lead_off_counter self' < 50).
Proof.
  split.
  - intros A E current new_value counter threshold HT _.
    now apply hysteresis_counter_bound.
  - intros CC_SP CC CS self self'.
    destruct (visibility_debounce_aux CC_SP CC CS self) as (Hrun & Hzero).
    fold self' in Hrun, Hzero.
    destruct (update_keeps CC_SP CC CS self) as (_ & _ & _ & Hg & _).
    fold self' in Hg.
    match type of Hg with _ = gap_counter (_update_target_distance ?v ?n ?s) =>
      destruct (target_step_keeps v n s) as (_ & _ & _ & Tg & _) end.
    match type of Tg with _ = gap_counter (_update_object_gap ?d ?s) =>
      destruct (gap_step_fields d s) as (Grun & _) end.
    split.
    + rewrite Hg, Tg.
      match type of Grun with _ = _hysteresis_update ?a ?b ?c ?d =>
        pose proof (hysteresis_counter_bound a b c d) as Hb end.
      rewrite <- Grun in Hb. cbn [snd] in Hb. apply Hb. unfold LEAD_HYSTERESIS_FRAMES. lia.
    + match type of Hrun with _ = _hysteresis_update ?a ?b ?c ?d =>
        pose proof (hysteresis_counter_bound a b c d ltac:(lia)) as Hb end.
      rewrite <- Hrun in Hb. cbn [snd] in Hb.
      unfold visible_counter in Hb, Hzero.
      destruct (status (leadOne CC_SP)); cbn in Hzero; rewrite Hzero; split; (assumption || lia).
Qed.

Lemma counters_below_threshold_witness :
  1 <= 50 /\ 0 <= 60 /\ snd (_hysteresis_update 0 5 60 50) < 50.
Proof.
  split; [lia|]. split; [lia|].
  apply (proj1 counters_below_threshold Z PyEq_int 0 5 60 50); lia.
Defined.

(** The dictionary lookup of [_update_target_distance] selects the factor
    that the specification describes. *)
Lemma ttc_lookup (n : Z) :
  default (distance_setting_ttc_vals !!! 1) (distance_setting_ttc_vals !! n) = ttc_factor_spec n.
Proof.
  unfold ttc_factor_spec, distance_setting_ttc_vals.
  destruct (Z.eqb_spec n 1) as [->|H1]; [vm_compute; reflexivity|].
  destruct (Z.eqb_spec n 2) as [->|H2]; [vm_compute; reflexivity|].
  destruct (Z.eqb_spec n 3) as [->|H3]; [vm_compute; reflexivity|].
  rewrite !lookup_insert_ne, lookup_singleton_ne by congruence.
  vm_compute. reflexivity.
Qed.

Lemma target_step_value (v : float) (n : Z) (self : t) :
  let stopping := Float64.max (Float64.literal 10 0) (Float64.mul v (ttc_factor_spec n)) in
  target_distance (_update_target_distance v n self)
  = if Float64.eqb (lead_distance self) (Float64.of_Z 0) then stopping
    else Float64.min stopping (lead_distance self).
Proof.
  destruct self. unfold _update_target_distance.
  cbn [set_target_distance target_distance lead_distance].
  rewrite ttc_lookup. reflexivity.
Qed.

(** The target distance that one update call leaves. *)
Lemma update_target_value (CC_SP : CarControlSP) (CC : CarControl) (CS : CarState)
    (self : t) :
  let d := dRel (leadOne CC_SP) in
  let stopping :=
    Float64.max (Float64.literal 10 0)
      (Float64.mul (vEgo (out CS)) (ttc_factor_spec (leadDistanceBars (hudControl CC)))) in
  target_distance (fst (update CC_SP CC CS self))
  = if Float64.eqb d (Float64.of_Z 0) then stopping else Float64.min stopping d.
Proof.
  intros d stopping.
  destruct (update_keeps CC_SP CC CS self) as (_ & _ & _ & _ & _ & _ & Ht).
  rewrite Ht, target_step_value.
  match goal with |- context [lead_distance (_update_object_gap ?x ?s)] =>
    destruct (gap_step_fields x s) as (_ & _ & _ & _ & Hd); rewrite Hd end.
  match goal with |- context [lead_distance (_update_lead_visible_hysteresis ?x ?s)] =>
    destruct (visible_step_fields x s) as (_ & _ & _ & _ & Hd'); rewrite Hd' end.
  destruct self. reflexivity.
Qed.

(** The capped value never exceeds a lead distance that is a number. *)
Lemma min_cap (stopping d : float) :
  Float64.is_nan stopping = false -> Float64.is_nan d = false ->
  Float64.leb (Float64.min stopping d) d = true.
Proof.
  intros Hs Hd. unfold Float64.min. destruct (Float64.ltb d stopping) eqn:E.
  - now apply leb_refl.
  - now apply not_ltb_leb.
Qed.

(** C6: the target-distance step takes the factor 1.2, 1.7 or 2.0 for the
    settings 1, 2 and 3 and 1.2 for every other setting, computes
    [max(10.0, ego_speed * factor)] and, when the lead distance is not 0,
    caps it with [min] at the lead distance, so that the result does not
    exceed a lead distance that is a number.  An ego speed of 10 with
    setting 2 gives 17.0 without a lead and 5.0 with a lead at 5. *)
Theorem target_distance_rule (v : float) (distance_setting : Z) (self : t) :
  let factor := ttc_factor_spec distance_setting in
  let stopping := Float64.max (Float64.literal 10 0) (Float64.mul v factor) in
  let self' := _update_target_distance v distance_setting self in
  (ttc_factor_spec 1 = Float64.literal 12 1
   /\ ttc_factor_spec 2 = Float64.literal 17 1
   /\ ttc_factor_spec 3 = Float64.literal 20 1
   /\ (distance_setting <> 1 -> distance_setting <> 2 -> distance_setting <> 3 ->
       factor = Float64.literal 12 1))
  /\ target_distance self'
     = (if Float64.eqb (lead_distance self) (Float64.of_Z 0) then stopping
        else Float64.min stopping (lead_distance self))
  /\ (Float64.eqb (lead_distance self) (Float64.of_Z 0) = false ->
      Float64.is_nan (lead_distance self) = false ->
      Float64.leb (target_distance self') (lead_distance self) = true)
  /\ (forall (c : t) (lq rq : Z) (l r vRel : float) (st : bool),
        target_distance
          (fst (update_cycle (cycle (Float64.of_Z 0) vRel st (Float64.of_Z 10) 2 l r lq rq) c))
        = Float64.literal 170 1
        /\ target_distance
             (fst (update_cycle (cycle (Float64.of_Z 5) vRel st (Float64.of_Z 10) 2 l r lq rq) c))
           = Float64.literal 50 1).
Proof.
  intros factor stopping self'. split; [|split; [|split]].
  - repeat split. subst factor. unfold ttc_factor_spec. intros H1 H2 H3.
    destruct (Z.eqb_spec distance_setting 1); [contradiction|].
    destruct (Z.eqb_spec distance_setting 2); [contradiction|].
    destruct (Z.eqb_spec distance_setting 3); [contradiction|]. reflexivity.
  - apply target_step_value.
  - intros Hz Hn. subst self'. rewrite target_step_value. fold factor stopping. rewrite Hz.
    apply min_cap; [|assumption]. apply max_10_bounds.
  - intros c lq rq l r vRel st. unfold update_cycle, cycle.
    rewrite !update_target_value. cbn [dRel leadOne vEgo out leadDistanceBars hudControl].
    split; vm_compute; reflexivity.
Qed.

Lemma target_distance_rule_witness :
  let self := set_lead_distance (Float64.of_Z 5) (init {| flags := 0 |}) in
  Float64.eqb (lead_distance self) (Float64.of_Z 0) = false
  /\ Float64.is_nan (lead_distance self) = false
  /\ Float64.leb (target_distance (_update_target_distance (Float64.of_Z 10) 7 self))
       (lead_distance self) = true.
Proof.
  intros self. split; [reflexivity|]. split; [reflexivity|].
  apply (proj1 (proj2 (proj2 (target_distance_rule (Float64.of_Z 10) 7 self))));
    reflexivity.
Defined.

(** C2, as the code has it: after every update call the target distance
    is at least 10.0 when there is no lead ([lead_distance == 0]) or the
    lead is not closer than 10; with a lead closer than 10 the target
    distance is the lead distance itself. *)
Theorem target_distance_floor (CC_SP : CarControlSP) (CC : CarControl) (CS : CarState)
    (self : t) :
  let d := dRel (leadOne CC_SP) in
  let self' := fst (update CC_SP CC CS self) in
  (Float64.eqb d (Float64.of_Z 0) = true \/ Float64.ltb d (Float64.literal 10 0) = false ->
   Float64.leb (Float64.literal 10 0) (target_distance self') = true)
  /\ (Float64.eqb d (Float64.of_Z 0) = false -> Float64.ltb d (Float64.literal 10 0) = true ->
      target_distance self' = d).
Proof.
  intros d self'. subst self'. rewrite update_target_value. fold d.
  set (stopping := Float64.max _ _).
  destruct (max_10_bounds (Float64.mul (vEgo (out CS))
             (ttc_factor_spec (leadDistanceBars (hudControl CC))))) as [Hnan Hge].
  fold stopping in Hnan, Hge.
  split.
  - intros Hd. destruct (Float64.eqb d (Float64.of_Z 0)) eqn:Hz; [exact Hge|].
    destruct Hd as [Hd|Hd]; [discriminate|].
    unfold Float64.min. destruct (Float64.ltb d stopping) eqn:E; [|exact Hge].
    apply not_ltb_leb; [apply (ltb_not_nan _ _ E) | reflexivity | assumption].
  - intros Hz Hlt. rewrite Hz. unfold Float64.min.
    now rewrite (ltb_leb_trans d _ stopping Hlt Hge).
Qed.

Lemma target_distance_floor_witness :
  let '(CC_SP, CC, CS) :=
    cycle (Float64.of_Z 40) (Float64.of_Z 0) true (Float64.of_Z 10) 2
      (Float64.of_Z 0) (Float64.of_Z 0) 0 0 in
  Float64.ltb (dRel (leadOne CC_SP)) (Float64.literal 10 0) = false
  /\ Float64.leb (Float64.literal 10 0)
       (target_distance (fst (update CC_SP CC CS (init {| flags := 0 |})))) = true.
Proof.
  cbv beta iota delta [cycle]. split; [reflexivity|].
  apply (proj1 (target_distance_floor _ _ _ (init {| flags := 0 |}))).
  right. reflexivity.
Defined.

(** C2 fails as stated: with a lead at 5 m, an ego speed of 10 and setting
    2, the target distance after the update is 5.0, which is below 10. *)
Lemma target_distance_below_10 :
  let c := cycle (Float64.of_Z 5) (Float64.of_Z 0) true (Float64.of_Z 10) 2
             (Float64.of_Z 0) (Float64.of_Z 0) 0 0 in
  let self' := fst (update_cycle c (init {| flags := 0 |})) in
  target_distance self' = Float64.of_Z 5
  /\ Float64.leb (Float64.literal 10 0) (target_distance self') = false
  /\ Float64.ltb (target_distance self') (Float64.literal 10 0) = true.
Proof. vm_compute. auto. Qed.

(** C7: before the debounce, an absent lead distance and a distance equal
    to 0 give bucket 0; otherwise a distance below 20 gives 2, below 25
    gives 3, below 30 gives 4, and anything else 5.  The distances 19.999,
    20.0, 24.999, 25.0, 29.999 and 30.0 give 2, 3, 3, 4, 4 and 5.  The
    gap step debounces exactly this bucket. *)
Theorem gap_bucket_boundaries :
  new_gap None = 0
  /\ (forall d : float, Float64.eqb d (Float64.of_Z 0) = true -> new_gap (Some d) = 0)
  /\ (forall d : float,
        Float64.eqb d (Float64.of_Z 0) = false ->
        new_gap (Some d)
        = if Float64.ltb d (Float64.of_Z 20) then 2
          else if Float64.ltb d (Float64.of_Z 25) then 3
          else if Float64.ltb d (Float64.of_Z 30) then 4
          else 5)
  /\ map (fun d => new_gap (Some d))
       [Float64.literal 19999 3; Float64.literal 200 1; Float64.literal 24999 3;
        Float64.literal 250 1; Float64.literal 29999 3; Float64.literal 300 1]
     = [2; 3; 3; 4; 4; 5]
  /\ new_gap (Some (Float64.literal 0 1)) = 0
  /\ (forall (d : option float) (self : t),
        let self' := _update_object_gap d self in
        (object_gap self', gap_counter self')
        = _hysteresis_update (object_gap self) (new_gap d) (gap_counter self) 50).
Proof.
  split; [reflexivity|]. split; [|split; [|split; [|split]]].
  - intros d E. unfold new_gap. now rewrite E.
  - intros d E. unfold new_gap. now rewrite E.
  - vm_compute. reflexivity.
  - vm_compute. reflexivity.
  - intros d self. apply gap_step_fields.
Qed.

Lemma gap_bucket_boundaries_witness :
  Float64.eqb (Float64.literal 225 1) (Float64.of_Z 0) = false
  /\ new_gap (Some (Float64.literal 225 1)) = 3.
Proof.
  split; [reflexivity|].
  rewrite (proj1 (proj2 (proj2 gap_bucket_boundaries)) (Float64.literal 225 1) eq_refl).
  reflexivity.
Defined.

(** C5: [CanLeadData.object_rel_gap] is 0 when the lead distance equals 0,
    else 2 when the relative speed is below -0.2, else 1;
    [CanFdLeadData.object_rel_gap] is 0 when the lead is not visible, else
    2 when the relative speed is below 0, else 1.  A visible lead at a
    non-zero distance with relative speed -0.1 gives 1 on CAN and 2 on
    CAN-FD. *)
Theorem object_rel_gap_variants (gap : Z) (dist rel target : float) (visible : bool)
    (left right : option Z) :
  let can := LeadData.init CanLeadData gap dist rel visible target left right in
  let canfd := LeadData.init CanFdLeadData gap dist rel visible target left right in
  LeadData.object_rel_gap can
  = (if Float64.eqb dist (Float64.of_Z 0) then 0
     else if Float64.ltb rel (Float64.neg (Float64.literal 2 1)) then 2 else 1)
  /\ LeadData.object_rel_gap canfd
     = (if negb visible then 0
        else if Float64.ltb rel (Float64.of_Z 0) then 2 else 1)
  /\ (Float64.eqb dist (Float64.of_Z 0) = false -> visible = true ->
      rel = Float64.neg (Float64.literal 1 1) ->
      LeadData.object_rel_gap can = 1 /\ LeadData.object_rel_gap canfd = 2).
Proof.
  intros can canfd. split; [reflexivity|]. split; [reflexivity|].
  intros Hd Hv Hr. subst can canfd visible rel. unfold LeadData.object_rel_gap.
  cbn [LeadData.cls LeadData.init LeadData.lead_distance LeadData.lead_rel_speed
       LeadData.lead_visible].
  rewrite Hd. split; vm_compute; reflexivity.
Qed.

Lemma object_rel_gap_variants_witness :
  let rel := Float64.neg (Float64.literal 1 1) in
  let dist := Float64.of_Z 12 in
  Float64.eqb dist (Float64.of_Z 0) = false
  /\ LeadData.object_rel_gap
       (LeadData.init CanLeadData 2 dist rel true (Float64.of_Z 12) None None) = 1
  /\ LeadData.object_rel_gap
       (LeadData.init CanFdLeadData 2 dist rel true (Float64.of_Z 12) None None) = 2.
Proof.
  intros rel dist. split; [reflexivity|].
  apply (proj2 (proj2 (object_rel_gap_variants 2 dist rel (Float64.of_Z 12) true None None)));
    reflexivity.
Defined.

(** ** Lane positioning *)

(** Whatever path [lane_core] takes, the second value is 30 minus the
    first. *)
Lemma lane_core_sum (l r : Z) (e1 e2 z0 z1 z2 : bool) (a b : Z) :
  lane_core l r e1 e2 z0 z1 z2 = Ok (a, b) -> a + b = 30.
Proof.
  unfold lane_core.
  destruct (if z0 then _ else _) as [x y]. unfold renormalise.
  destruct (x + y =? 0).
  - intros [= <- <-]. reflexivity.
  - destruct (int_truediv x (x + y)) as [q|]; [|discriminate]. cbn.
    destruct (py_round _) as [v|]; [|discriminate]. cbn.
    intros [= <- <-]. lia.
Qed.

(** Two non-negative values renormalise to two values within 0..30 that
    sum to 30. *)
Lemma renormalise_range (x y : Z) :
  0 <= x -> 0 <= y ->
  exists a b, renormalise x y = Ok (a, b)
              /\ a + b = 30 /\ 0 <= a <= 30 /\ 0 <= b <= 30.
Proof.
  intros Hx Hy. unfold renormalise.
  destruct (Z.eqb_spec (x + y) 0) as [E|E].
  - exists 15, 15. split; [reflexivity | lia].
  - assert (Hq : bounded_by 1 (Float64.quotient x (x + y))).
    { destruct (Z.eq_dec x 0) as [->|]; [|apply quotient_bound; lia].
      unfold Float64.quotient. destruct (Z.ltb_spec (0 + y) 0); [lia | exact I]. }
    unfold int_truediv. destruct (Z.eqb_spec (x + y) 0); [contradiction|].
    pose proof (mul_30_bound _ Hq) as Hm.
    destruct (py_round_bound 30 _ ltac:(lia) Hm) as (v & Hv & Hb).
    exists v, (30 - v).
    destruct (Float64.quotient x (x + y)) as [s|s| |s m e]; try contradiction;
      cbn [mbind result_bind]; rewrite Hv; cbn; split; (reflexivity || lia).
Qed.

(** [lane_core] completes with two values within 0..30 when it
    substitutes no side, or when both filtered values are at most 30. *)
Lemma lane_core_range (l r : Z) (e1 e2 z0 z1 z2 : bool) :
  0 <= l -> 0 <= r ->
  (l <= 30 /\ r <= 30) \/ (e1 = false /\ e2 = false /\ z1 = false /\ z2 = false) ->
  exists a b, lane_core l r e1 e2 z0 z1 z2 = Ok (a, b)
              /\ a + b = 30 /\ 0 <= a <= 30 /\ 0 <= b <= 30.
Proof.
  intros Hl Hr [[Bl Br]|(-> & -> & -> & ->)]; unfold lane_core.
  - destruct e1, e2, z0, z1, z2; apply renormalise_range; lia.
  - destruct z0; apply renormalise_range; lia.
Qed.

Lemma lane_units_nonneg (raw : float) (l : Z) : lane_units raw = Ok l -> 0 <= l.
Proof.
  unfold lane_units. destruct (py_round _) as [v|]; [|discriminate].
  cbn. intros [= <-]. lia.
Qed.

Lemma trusted_nonneg (q l : Z) : 0 <= l -> 0 <= trusted q l.
Proof. unfold trusted. destruct (negb (in_2_3 q)); lia. Qed.

(** The lane lines after one update call: those of [lane_core] when the
    call completes, the previous ones when it raises. *)
Lemma update_lane_lines (CC_SP : CarControlSP) (CC : CarControl) (CS : CarState) (self : t) :
  let self' := fst (update CC_SP CC CS self) in
  let core l r :=
    lane_core (trusted (leftLaneQuality CS) l) (trusted (rightLaneQuality CS) r)
      (Float64.eqb (leftLanePosition CS) (Float64.neg (Float64.literal 20248375 7)))
      (Float64.eqb (rightLanePosition CS) (Float64.literal 20248375 7))
      (Float64.eqb (leftLanePosition CS) (rightLanePosition CS)
       && Float64.eqb (rightLanePosition CS) (Float64.of_Z 0))
      (Float64.eqb (leftLanePosition CS) (Float64.of_Z 0))
      (Float64.eqb (rightLanePosition CS) (Float64.of_Z 0)) in
  match snd (update CC_SP CC CS self) with
  | None =>
      exists l r,
        lane_units (leftLanePosition CS) = Ok l /\ lane_units (rightLanePosition CS) = Ok r
        /\ core l r = Ok (left_laneline self', right_laneline self')
  | Some e =>
      left_laneline self' = left_laneline self /\ right_laneline self' = right_laneline self
      /\ (forall l r,
            lane_units (leftLanePosition CS) = Ok l -> lane_units (rightLanePosition CS) = Ok r ->
            core l r = Raise e)
  end.
Proof.
  intros self' core. subst self'. rewrite update_shape.
  set (pre := _update_target_distance _ _ _).
  destruct (_update_lane_positioning CS pre) as [s|e] eqn:E; cbn [fst snd].
  - apply update_lane_positioning_ok in E as (l & r & a & b & Hl & Hr & Hc & ->).
    exists l, r. destruct (lane_write_keeps a b pre) as (_&_&_&_&_&_&_& -> & ->). auto.
  - split; [|split].
    + subst pre. unfold _update_target_distance, _update_object_gap,
        _update_lead_visible_hysteresis.
      repeat match goal with |- context [_hysteresis_update ?a ?b ?c ?d] =>
        destruct (_hysteresis_update a b c d) end.
      destruct self, (status (leadOne CC_SP)); reflexivity.
    + subst pre. unfold _update_target_distance, _update_object_gap,
        _update_lead_visible_hysteresis.
      repeat match goal with |- context [_hysteresis_update ?a ?b ?c ?d] =>
        destruct (_hysteresis_update a b c d) end.
      destruct self, (status (leadOne CC_SP)); reflexivity.
    + intros l r Hl Hr. rewrite update_lane_positioning_eq, Hl, Hr in E.
      cbn [mbind result_bind] in E. fold (core l r) in E.
      destruct (core l r) as [[a b]|e']; [discriminate|]. cbn in E. congruence.
Qed.

Lemma update_sum_step (CC_SP : CarControlSP) (CC : CarControl) (CS : CarState) (self : t) :
  left_laneline self + right_laneline self = 30 ->
  left_laneline (fst (update CC_SP CC CS self))
  + right_laneline (fst (update CC_SP CC CS self)) = 30.
Proof.
  intros Hsum. pose proof (update_lane_lines CC_SP CC CS self) as H. cbv zeta in H.
  destruct (snd (update CC_SP CC CS self)).
  - destruct H as (-> & -> & _). exact Hsum.
  - destruct H as (l & r & _ & _ & Hc). now apply lane_core_sum in Hc.
Qed.

Lemma update_all_sum (cycles : list (CarControlSP * CarControl * CarState)) :
  forall self : t,
  left_laneline self + right_laneline self = 30 ->
  left_laneline (update_all self cycles) + right_laneline (update_all self cycles) = 30.
Proof.
  induction cycles as [|[[CC_SP CC] CS] cycles IH]; intros self Hsum.
  - exact Hsum.
  - unfold update_all. cbn [fold_left update_cycle].
    apply IH. now apply update_sum_step.
Qed.

(** C3, as the code has it: an update call that completes leaves
    [left_laneline + right_laneline == 30], and one that raises leaves
    both lane lines as they were, so the sum is 30 in every state that a
    fresh controller reaches.  When both raw offsets scale without error
    ([round] raises on neither scaled offset), the call completes and each
    lane line is within 0..30 provided that no side is substituted in the
    cycle (neither raw offset equals 0 or its road-edge sentinel) or that
    the scaled magnitude of every boundary of quality 2 or 3 is at most
    30. *)
Theorem lane_line_sum (CC_SP : CarControlSP) (CC : CarControl) (CS : CarState) (self : t) :
  let self' := fst (update CC_SP CC CS self) in
  let exn := snd (update CC_SP CC CS self) in
  let left_edge :=
    Float64.eqb (leftLanePosition CS) (Float64.neg (Float64.literal 20248375 7)) in
  let right_edge := Float64.eqb (rightLanePosition CS) (Float64.literal 20248375 7) in
  let left_zero := Float64.eqb (leftLanePosition CS) (Float64.of_Z 0) in
  let right_zero := Float64.eqb (rightLanePosition CS) (Float64.of_Z 0) in
  (exn = None -> left_laneline self' + right_laneline self' = 30)
  /\ (exn <> None ->
      left_laneline self' = left_laneline self /\ right_laneline self' = right_laneline self)
  /\ (forall l r : Z,
        lane_units (leftLanePosition CS) = Ok l ->
        lane_units (rightLanePosition CS) = Ok r ->
        (trusted (leftLaneQuality CS) l <= 30 /\ trusted (rightLaneQuality CS) r <= 30)
        \/ (left_edge = false /\ right_edge = false
            /\ left_zero = false /\ right_zero = false) ->
        exn = None
        /\ left_laneline self' + right_laneline self' = 30
        /\ 0 <= left_laneline self' <= 30
        /\ 0 <= right_laneline self' <= 30)
  /\ (forall (CP : CarParams) (cycles : list (CarControlSP * CarControl * CarState)),
        left_laneline (update_all (init CP) cycles)
        + right_laneline (update_all (init CP) cycles) = 30).
Proof.
  intros self' exn left_edge right_edge left_zero right_zero. subst self' exn.
  pose proof (update_lane_lines CC_SP CC CS self) as H. cbv zeta in H.
  fold left_edge right_edge left_zero right_zero in H.
  split; [|split; [|split]].
  - intros E. rewrite E in H. destruct H as (l & r & _ & _ & Hc).
    now apply lane_core_sum in Hc.
  - intros E. destruct (snd (update CC_SP CC CS self)); [|congruence].
    destruct H as (Hl & Hr & _). auto.
  - intros l r Hl Hr Hyp.
    pose proof (trusted_nonneg (leftLaneQuality CS) l (lane_units_nonneg _ _ Hl)) as Bl.
    pose proof (trusted_nonneg (rightLaneQuality CS) r (lane_units_nonneg _ _ Hr)) as Br.
    destruct (lane_core_range _ _ left_edge right_edge
                (Float64.eqb (leftLanePosition CS) (rightLanePosition CS) && right_zero)
                left_zero right_zero Bl Br Hyp)
      as (a' & b' & Hc & Hs & Ha & Hb).
    destruct (snd (update CC_SP CC CS self)) as [e|].
    + destruct H as (_ & _ & H). specialize (H l r Hl Hr). congruence.
    + destruct H as (l0 & r0 & Hl0 & Hr0 & Hc0).
      assert (l0 = l) by congruence. assert (r0 = r) by congruence. subst l0 r0.
      rewrite Hc in Hc0. injection Hc0 as <- <-. auto.
  - intros CP cycles. apply update_all_sum. reflexivity.
Qed.

Lemma lane_line_sum_witness :
  let '(CC_SP, CC, CS) :=
    cycle (Float64.of_Z 12) (Float64.of_Z 0) true (Float64.of_Z 10) 2
      (Float64.of_Z 1) (Float64.literal 24 1) 3 3 in
  let self' := fst (update CC_SP CC CS (init {| flags := 0 |})) in
  lane_units (leftLanePosition CS) = Ok 9
  /\ lane_units (rightLanePosition CS) = Ok 21
  /\ trusted (leftLaneQuality CS) 9 <= 30
  /\ trusted (rightLaneQuality CS) 21 <= 30
  /\ 0 <= left_laneline self' <= 30
  /\ 0 <= right_laneline self' <= 30.
Proof.
  cbv beta iota delta [cycle].
  split; [vm_compute; reflexivity|]. split; [vm_compute; reflexivity|].
  split; [vm_compute; discriminate|]. split; [vm_compute; discriminate|].
  apply (proj1 (proj2 (proj2 (lane_line_sum _ _ _ (init {| flags := 0 |})))) 9 21);
    [vm_compute; reflexivity | vm_compute; reflexivity |].
  left. split; vm_compute; discriminate.
Defined.

(** C3 fails as stated: with no left boundary (raw offset 0), a right
    boundary 4 m away and both qualities 3, the update completes with the
    lane lines -5 and 35, which sum to 30 but lie outside 0..30. *)
Lemma lane_line_out_of_range :
  let c := cycle (Float64.of_Z 0) (Float64.of_Z 0) false (Float64.of_Z 10) 2
             (Float64.of_Z 0) (Float64.of_Z 4) 3 3 in
  let self' := fst (update_cycle c (init {| flags := 0 |})) in
  snd (update_cycle c (init {| flags := 0 |})) = None
  /\ left_laneline self' = -5
  /\ right_laneline self' = 35
  /\ ~ (0 <= left_laneline self' <= 30)
  /\ ~ (0 <= right_laneline self' <= 30).
Proof. vm_compute. repeat split; try reflexivity; intros [H1 H2]; auto. Qed.

Lemma trusted_zero (q : Z) : trusted q 0 = 0.
Proof. unfold trusted. now destruct (negb (in_2_3 q)). Qed.

(** C9: when both raw lane offsets equal 0 in a cycle, whatever the
    quality grades, the update call completes with both lane lines 15. *)
Theorem symmetric_fallback (CC_SP : CarControlSP) (CC : CarControl) (CS : CarState)
    (self : t) :
  Float64.eqb (leftLanePosition CS) (Float64.of_Z 0) = true ->
  Float64.eqb (rightLanePosition CS) (Float64.of_Z 0) = true ->
  let self' := fst (update CC_SP CC CS self) in
  snd (update CC_SP CC CS self) = None
  /\ left_laneline self' = 15
  /\ right_laneline self' = 15.
Proof.
  intros Hl Hr self'. subst self'.
  apply eqb_zero in Hl as [sl Hl]. apply eqb_zero in Hr as [sr Hr].
  pose proof (update_lane_lines CC_SP CC CS self) as H. cbv zeta in H.
  rewrite Hl, Hr in H.
  assert (Ul : lane_units (S754_zero sl) = Ok 0) by (destruct sl; vm_compute; reflexivity).
  assert (Ur : lane_units (S754_zero sr) = Ok 0) by (destruct sr; vm_compute; reflexivity).
  assert (Hc : lane_core 0 0
                 (Float64.eqb (S754_zero sl) (Float64.neg (Float64.literal 20248375 7)))
                 (Float64.eqb (S754_zero sr) (Float64.literal 20248375 7))
                 (Float64.eqb (S754_zero sl) (S754_zero sr)
                  && Float64.eqb (S754_zero sr) (Float64.of_Z 0))
                 (Float64.eqb (S754_zero sl) (Float64.of_Z 0))
                 (Float64.eqb (S754_zero sr) (Float64.of_Z 0)) = Ok (15, 15))
    by (destruct sl, sr; vm_compute; reflexivity).
  destruct (snd (update CC_SP CC CS self)) as [e|].
  - destruct H as (_ & _ & H). specialize (H 0 0 Ul Ur).
    rewrite !trusted_zero in H. congruence.
  - destruct H as (l & r & Hl' & Hr' & H).
    assert (l = 0) by congruence. assert (r = 0) by congruence. subst l r.
    rewrite !trusted_zero, Hc in H. injection H as <- <-. auto.
Qed.

Lemma symmetric_fallback_witness :
  let '(CC_SP, CC, CS) :=
    cycle (Float64.of_Z 12) (Float64.of_Z 0) true (Float64.of_Z 10) 2
      (S754_zero false) (S754_zero true) 3 1 in
  let self' := fst (update CC_SP CC CS (init {| flags := 0 |})) in
  left_laneline self' = 15 /\ right_laneline self' = 15.
Proof.
  cbv beta iota delta [cycle].
  apply (symmetric_fallback _ _ _ (init {| flags := 0 |})); reflexivity.
Defined.

(** ** The display snapshot *)

(** C1, as the code has it: the snapshot built for CAN-FD carries every
    attribute of the controller, its two lane lines included; the snapshot
    built for CAN carries the other five attributes and leaves both lane
    lines at their default 0. *)
Theorem lead_data_lane_lines (HyundaiFlags_CANFD : Z) (self : t) :
  let d := lead_data HyundaiFlags_CANFD self in
  (LeadData.object_gap d = object_gap self
   /\ LeadData.lead_distance d = lead_distance self
   /\ LeadData.lead_rel_speed d = lead_rel_speed self
   /\ LeadData.lead_visible d = lead_visible self
   /\ LeadData.target_distance d = target_distance self)
  /\ (Z.land (flags (CP self)) HyundaiFlags_CANFD <> 0 ->
      LeadData.cls d = CanFdLeadData
      /\ LeadData.left_laneline d = left_laneline self
      /\ LeadData.right_laneline d = right_laneline self)
  /\ (Z.land (flags (CP self)) HyundaiFlags_CANFD = 0 ->
      LeadData.cls d = CanLeadData
      /\ LeadData.left_laneline d = 0
      /\ LeadData.right_laneline d = 0).
Proof.
  intros d. subst d. unfold lead_data.
  destruct (Z.eqb_spec (Z.land (flags (CP self)) HyundaiFlags_CANFD) 0) as [E|E];
    cbn; repeat split; try reflexivity; intros; congruence.
Qed.

Lemma lead_data_lane_lines_witness :
  let c := cycle (Float64.of_Z 12) (Float64.of_Z 0) true (Float64.of_Z 10) 2
             (Float64.of_Z 1) (Float64.literal 24 1) 3 3 in
  let self := fst (update_cycle c (init {| flags := 1 |})) in
  Z.land (flags (CP self)) 1 <> 0
  /\ LeadData.left_laneline (lead_data 1 self) = 9
  /\ LeadData.right_laneline (lead_data 1 self) = 21.
Proof.
  intros c self.
  assert (F : Z.land (flags (CP self)) 1 <> 0) by (vm_compute; discriminate).
  split; [exact F|].
  destruct (proj1 (proj2 (lead_data_lane_lines 1 self)) F) as (_ & -> & ->).
  split; vm_compute; reflexivity.
Defined.

(** C1 fails as stated: after a cycle that leaves the lane lines at 9 and
    21, the CAN snapshot has both lane lines 0, not the controller's, and
    the CAN-FD snapshot has the controller's 9 and 21, not the default. *)
Lemma can_snapshot_drops_lane_lines :
  let c := cycle (Float64.of_Z 12) (Float64.of_Z 0) true (Float64.of_Z 10) 2
             (Float64.of_Z 1) (Float64.literal 24 1) 3 3 in
  let can := fst (update_cycle c (init {| flags := 0 |})) in
  let canfd := fst (update_cycle c (init {| flags := 1 |})) in
  (left_laneline can = 9 /\ right_laneline can = 21
   /\ LeadData.cls (lead_data 1 can) = CanLeadData
   /\ LeadData.left_laneline (lead_data 1 can) = 0
   /\ LeadData.right_laneline (lead_data 1 can) = 0
   /\ LeadData.left_laneline (lead_data 1 can) <> left_laneline can)
  /\ (left_laneline canfd = 9 /\ right_laneline canfd = 21
      /\ LeadData.cls (lead_data 1 canfd) = CanFdLeadData
      /\ LeadData.left_laneline (lead_data 1 canfd) = 9
      /\ LeadData.right_laneline (lead_data 1 canfd) = 21).
Proof. vm_compute. repeat split; try reflexivity; discriminate. Qed.

End Controller.

(** * Further properties of the code *)

(** ** The hysteresis primitive over several cycles *)
Section HysteresisRuns.

Context {A : Type} `{PyEq A}.

Lemma hysteresis_run_snoc (T : Z) (st : A * Z) (cands : list A) (x : A) :
  hysteresis_run T st (cands ++ [x])
  = _hysteresis_update (fst (hysteresis_run T st cands)) x
      (snd (hysteresis_run T st cands)) T.
Proof. unfold hysteresis_run. now rewrite fold_left_app. Qed.

Lemma hysteresis_step_latency (T : Z) (current x : A) (counter : Z) :
  0 <= counter -> counter + 1 < T ->
  exists n, _hysteresis_update current x counter T = (current, n) /\ 0 <= n <= counter + 1.
Proof.
  intros H0 Hlt. unfold _hysteresis_update. destruct (py_eq x current).
  - exists 0. split; [reflexivity | lia].
  - destruct (Z.geb_spec (counter + 1) T); [lia|].
    exists (counter + 1). split; [reflexivity | lia].
Qed.

Lemma hysteresis_run_latency_aux (T : Z) (current : A) (cands : list A) :
  forall counter : Z,
  0 <= counter -> counter + Z.of_nat (length cands) < T ->
  fst (hysteresis_run T (current, counter) cands) = current
  /\ 0 <= snd (hysteresis_run T (current, counter) cands) <= counter + Z.of_nat (length cands).
Proof.
  induction cands as [|x cands IH]; intros counter H0 Hlen.
  - unfold hysteresis_run. cbn. split; [reflexivity | lia].
  - change (length (x :: cands)) with (S (length cands)) in *.
    destruct (hysteresis_step_latency T current x counter) as (n & En & Bn); try lia.
    unfold hysteresis_run. cbn [fold_left fst snd]. rewrite En.
    fold (hysteresis_run T (current, n) cands).
    destruct (IH n) as [E B]; try lia. split; [exact E | lia].
Qed.

(** X1: from a counter [c >= 0], no sequence of fewer than [T - c]
    candidates, whatever they are, changes the current value. *)
Theorem hysteresis_latency (T : Z) (current : A) (counter : Z) (cands : list A) :
  0 <= counter -> counter + Z.of_nat (length cands) < T ->
  fst (hysteresis_run T (current, counter) cands) = current.
Proof. intros H0 Hlen. now apply hysteresis_run_latency_aux. Qed.

End HysteresisRuns.

Lemma hysteresis_latency_witness :
  fst (hysteresis_run 5 (7, 1) [1; 7; 2]) = 7.
Proof. apply (hysteresis_latency 5 7 1 [1; 7; 2]); cbn; lia. Defined.

(** A run of raw visibility flags that are all set, from "not visible". *)
Lemma hysteresis_run_all_true (n : nat) :
  hysteresis_run 50 (false, 0) (repeat true n)
  = if (Z.of_nat n <? 50) then (false, Z.of_nat n) else (true, 0).
Proof.
  induction n as [|n IH].
  - reflexivity.
  - assert (E : repeat true (S n) = repeat true n ++ [true]) by apply repeat_cons.
    rewrite E, hysteresis_run_snoc, IH.
    destruct (Z.ltb_spec (Z.of_nat n) 50), (Z.ltb_spec (Z.of_nat (S n)) 50); try lia.
    + cbn [fst snd]. rewrite hysteresis_below by (reflexivity || lia). f_equal. lia.
    + cbn [fst snd]. rewrite hysteresis_adopt by (reflexivity || lia). reflexivity.
    + reflexivity.
Qed.

(** ** The controller over several cycles *)
Section ControllerRuns.

Import structs LeadDataCarController.

(** What [update] does to the gap attributes. *)
Lemma update_gap_state (CC_SP : CarControlSP) (CC : CarControl) (CS : CarState) (self : t) :
  let self' := fst (update CC_SP CC CS self) in
  (object_gap self', gap_counter self')
  = _hysteresis_update (object_gap self) (new_gap (Some (dRel (leadOne CC_SP))))
      (gap_counter self) 50.
Proof.
  intros self'.
  destruct (update_keeps CC_SP CC CS self) as (_ & _ & _ & Hc & Hg & _).
  fold self' in Hc, Hg. rewrite Hc, Hg.
  match goal with |- context [object_gap (_update_target_distance ?v ?n ?s)] =>
    destruct (target_step_keeps v n s) as (_ & _ & _ & Tc & Tg & _) end.
  rewrite Tc, Tg.
  match goal with |- context [object_gap (_update_object_gap ?d ?s)] =>
    destruct (gap_step_fields d s) as (Grun & _) end.
  rewrite Grun.
  match goal with |- context [object_gap (_update_lead_visible_hysteresis ?r ?s)] =>
    destruct (visible_step_fields r s) as (_ & _ & Vc & Vg & _) end.
  rewrite Vc, Vg. destruct self. reflexivity.
Qed.

Lemma update_all_snoc (self : t) (cycles : list (CarControlSP * CarControl * CarState))
    (c : CarControlSP * CarControl * CarState) :
  update_all self (cycles ++ [c]) = fst (update_cycle c (update_all self cycles)).
Proof. unfold update_all. now rewrite fold_left_app. Qed.

Lemma gap_run_aux (self : t) (cycles : list (CarControlSP * CarControl * CarState)) :
  let self' := update_all self cycles in
  (object_gap self', gap_counter self')
  = hysteresis_run 50 (object_gap self, gap_counter self) (map gap_of cycles).
Proof.
  induction cycles as [|c cycles IH] using rev_ind.
  - reflexivity.
  - cbv zeta in *. rewrite update_all_snoc, map_app. cbn [map].
    rewrite hysteresis_run_snoc, <- IH. cbn [fst snd]. destruct c as [[CC_SP CC] CS].
    apply update_gap_state.
Qed.

(** X2: over any sequence of update calls the pair of the gap bucket and
    its counter is the hysteresis primitive, at threshold 50, run over the
    pre-debounce buckets of the lead distances of these cycles. *)
Theorem gap_debounce_run (self : t) (cycles : list (CarControlSP * CarControl * CarState)) :
  let self' := update_all self cycles in
  (object_gap self', gap_counter self')
  = hysteresis_run 50 (object_gap self, gap_counter self) (map gap_of cycles).
Proof. apply gap_run_aux. Qed.

(** The buckets that the gap step can produce. *)
Lemma new_gap_values (d : option float) :
  new_gap d = 0 \/ new_gap d = 2 \/ new_gap d = 3 \/ new_gap d = 4 \/ new_gap d = 5.
Proof.
  unfold new_gap. destruct d as [d|]; [|auto].
  repeat match goal with |- context [if ?b then _ else _] => destruct b end; auto 6.
Qed.

Lemma hysteresis_keeps_or_adopts {A : Type} `{PyEq A} (current new_value : A)
    (counter threshold : Z) :
  fst (_hysteresis_update current new_value counter threshold) = current
  \/ fst (_hysteresis_update current new_value counter threshold) = new_value.
Proof.
  unfold _hysteresis_update. destruct (py_eq new_value current); [now left|].
  destruct (counter + 1 >=? threshold); auto.
Qed.

(** X3: in every state that a fresh controller reaches, the gap bucket
    is one of 0, 2, 3, 4 and 5. *)
Theorem object_gap_values (CP : CarParams)
    (cycles : list (CarControlSP * CarControl * CarState)) :
  let g := object_gap (update_all (init CP) cycles) in
  g = 0 \/ g = 2 \/ g = 3 \/ g = 4 \/ g = 5.
Proof.
  induction cycles as [|c cycles IH] using rev_ind.
  - left. reflexivity.
  - cbv zeta in *. rewrite update_all_snoc. destruct c as [[CC_SP CC] CS].
    unfold update_cycle.
    pose proof (update_gap_state CC_SP CC CS (update_all (init CP) cycles)) as E.
    cbv zeta in E. apply (f_equal fst) in E. cbn [fst] in E. rewrite E.
    destruct (hysteresis_keeps_or_adopts (object_gap (update_all (init CP) cycles))
                (new_gap (Some (dRel (leadOne CC_SP))))
                (gap_counter (update_all (init CP) cycles)) 50) as [-> | ->].
    + exact IH.
    + apply new_gap_values.
Qed.

Lemma visibility_counter_of_current_aux (CC_SP : CarControlSP) (CC : CarControl)
    (CS : CarState) (self : t) :
  let self' := fst (update CC_SP CC CS self) in
  visible_counter (lead_visible self') self' = 0.
Proof.
  intros self'.
  destruct (visibility_debounce_aux CC_SP CC CS self) as (Hrun & Hzero).
  fold self' in Hrun, Hzero.
  set (raw := status (leadOne CC_SP)) in *. clearbody raw.
  unfold _hysteresis_update in Hrun.
  destruct (py_eq raw (lead_visible self)) eqn:E.
  - injection Hrun as Hv Hc. apply Bool.eqb_prop in E. rewrite Hv, <- E. exact Hc.
  - destruct (visible_counter raw self + 1 >=? 50).
    + injection Hrun as Hv Hc. rewrite Hv. exact Hc.
    + injection Hrun as Hv Hc. rewrite Hv.
      replace (lead_visible self) with (negb raw); [exact Hzero|].
      unfold py_eq, PyEq_bool in E. revert E.
      destruct raw, (lead_visible self); cbn; congruence.
Qed.

(** X4: after every update call the visibility counter of the direction
    that the debounced flag already has is 0: only the counter that
    pushes against the current flag can be above 0. *)
Theorem visibility_counter_of_current (CC_SP : CarControlSP) (CC : CarControl)
    (CS : CarState) (self : t) :
  let self' := fst (update CC_SP CC CS self) in
  visible_counter (lead_visible self') self' = 0
  /\ (lead_visible self' = true -> _lead_on_counter self' = 0)
  /\ (lead_visible self' = false -> _lead_off_counter self' = 0).
Proof.
  intros self'. pose proof (visibility_counter_of_current_aux CC_SP CC CS self) as H.
  fold self' in H. split; [exact H|].
  unfold visible_counter in H. split; intros E; now rewrite E in H.
Qed.

Lemma visible_counter_sum (b : bool) (s : t) :
  visible_counter b s = 0 ->
  _lead_on_counter s + _lead_off_counter s = visible_counter (negb b) s.
Proof. unfold visible_counter. destruct b; cbn; lia. Qed.

(** One update call on a controller whose counter in the direction of its
    flag is 0 acts on the flag and the sum of the two counters as the
    primitive acts on a value and one counter. *)
Lemma update_visible_single (CC_SP : CarControlSP) (CC : CarControl) (CS : CarState)
    (self : t) :
  visible_counter (lead_visible self) self = 0 ->
  let self' := fst (update CC_SP CC CS self) in
  (lead_visible self', _lead_on_counter self' + _lead_off_counter self')
  = _hysteresis_update (lead_visible self) (status (leadOne CC_SP))
      (_lead_on_counter self + _lead_off_counter self) 50.
Proof.
  intros Hinv self'.
  destruct (visibility_debounce_aux CC_SP CC CS self) as (Hrun & Hzero).
  fold self' in Hrun, Hzero.
  set (raw := status (leadOne CC_SP)) in *. clearbody raw.
  assert (Hsum' : _lead_on_counter self' + _lead_off_counter self'
                  = visible_counter raw self').
  { rewrite (visible_counter_sum (negb raw) self' Hzero). now rewrite negb_involutive. }
  rewrite Hsum'. rewrite Hrun.
  destruct (Bool.eqb raw (lead_visible self)) eqn:E.
  - rewrite !hysteresis_same by exact E. reflexivity.
  - assert (Hneg : lead_visible self = negb raw)
      by (revert E; destruct raw, (lead_visible self); cbn; congruence).
    rewrite (visible_counter_sum _ self Hinv), Hneg, negb_involutive. reflexivity.
Qed.

Lemma visible_run_aux (CP : CarParams)
    (cycles : list (CarControlSP * CarControl * CarState)) :
  let self' := update_all (init CP) cycles in
  (lead_visible self', _lead_on_counter self' + _lead_off_counter self')
  = hysteresis_run 50 (false, 0) (map status_of cycles).
Proof.
  induction cycles as [|c cycles IH] using rev_ind.
  - reflexivity.
  - cbv zeta in *. rewrite update_all_snoc, map_app. cbn [map].
    rewrite hysteresis_run_snoc, <- IH. cbn [fst snd]. destruct c as [[CC_SP CC] CS].
    apply update_visible_single.
    destruct cycles as [|c' cycles'] using rev_ind; [reflexivity|].
    rewrite update_all_snoc. destruct c' as [[CC_SP' CC'] CS'].
    apply visibility_counter_of_current_aux.
Qed.

(** X5: from a fresh controller, the debounced flag together with the
    sum of the on- and the off-counter is the hysteresis primitive, at
    threshold 50 and with one counter, run over the raw flags of the
    cycles: the two counters amount to a single one. *)
Theorem visibility_single_counter (CP : CarParams)
    (cycles : list (CarControlSP * CarControl * CarState)) :
  let self' := update_all (init CP) cycles in
  (lead_visible self', _lead_on_counter self' + _lead_off_counter self')
  = hysteresis_run 50 (false, 0) (map status_of cycles).
Proof. apply visible_run_aux. Qed.

Lemma fresh_latency_aux (CP : CarParams)
    (cycles : list (CarControlSP * CarControl * CarState)) :
  (length cycles < 50)%nat ->
  lead_visible (update_all (init CP) cycles) = false
  /\ object_gap (update_all (init CP) cycles) = 0.
Proof.
  intros Hlen. split.
  - pose proof (visible_run_aux CP cycles) as E. cbv zeta in E.
    apply (f_equal fst) in E. cbn [fst] in E. rewrite E.
    apply hysteresis_run_latency_aux; [lia|]. rewrite length_map. lia.
  - pose proof (gap_run_aux (init CP) cycles) as E. cbv zeta in E.
    apply (f_equal fst) in E. cbn [fst] in E. rewrite E.
    change (object_gap (init CP), gap_counter (init CP)) with (0, 0).
    apply hysteresis_run_latency_aux; [lia|]. rewrite length_map. lia.
Qed.

(** X6: whatever the inputs, a fresh controller keeps "no lead visible"
    and the gap bucket 0 for its first 49 update calls. *)
Theorem fresh_controller_latency (CP : CarParams)
    (cycles : list (CarControlSP * CarControl * CarState)) :
  (length cycles < 50)%nat ->
  lead_visible (update_all (init CP) cycles) = false
  /\ object_gap (update_all (init CP) cycles) = 0.
Proof. apply fresh_latency_aux. Qed.

Lemma fresh_controller_latency_witness :
  let c := cycle (Float64.of_Z 12) (Float64.of_Z 0) true (Float64.of_Z 10) 2
             (Float64.of_Z 1) (Float64.literal 24 1) 3 3 in
  lead_visible (update_all (init {| flags := 0 |}) [c; c; c]) = false
  /\ object_gap (update_all (init {| flags := 0 |}) [c; c; c]) = 0.
Proof.
  intros c. apply (fresh_controller_latency {| flags := 0 |} [c; c; c]). cbn. lia.
Defined.

Lemma statuses_all_true (cycles : list (CarControlSP * CarControl * CarState)) :
  Forall (fun c => status_of c = true) cycles ->
  map status_of cycles = repeat true (length cycles).
Proof.
  induction 1 as [|c cycles Hc _ IH]; [reflexivity|]. cbn. now rewrite Hc, IH.
Qed.

(** X7: when every cycle reports a lead, a fresh controller shows it from
    the 50th update call on, and not before. *)
Theorem lead_turns_visible_at_50 (CP : CarParams)
    (cycles : list (CarControlSP * CarControl * CarState)) :
  Forall (fun c => status_of c = true) cycles ->
  lead_visible (update_all (init CP) cycles) = (Z.of_nat (length cycles) >=? 50).
Proof.
  intros Hall. pose proof (visible_run_aux CP cycles) as E. cbv zeta in E.
  apply (f_equal fst) in E. cbn [fst] in E. rewrite E.
  rewrite (statuses_all_true cycles Hall), hysteresis_run_all_true.
  destruct (Z.ltb_spec (Z.of_nat (length cycles)) 50),
           (Z.geb_spec (Z.of_nat (length cycles)) 50); try lia; reflexivity.
Qed.

Lemma all_true_repeat (c : CarControlSP * CarControl * CarState) (n : nat) :
  status_of c = true -> Forall (fun c => status_of c = true) (repeat c n).
Proof. intros Hc. induction n; cbn; constructor; assumption. Qed.

Lemma lead_turns_visible_at_50_witness :
  let c := cycle (Float64.of_Z 12) (Float64.of_Z 0) true (Float64.of_Z 10) 2
             (Float64.of_Z 1) (Float64.literal 24 1) 3 3 in
  lead_visible (update_all (init {| flags := 0 |}) (repeat c 50)) = true
  /\ lead_visible (update_all (init {| flags := 0 |}) (repeat c 49)) = false.
Proof.
  intros c. split.
  - rewrite (lead_turns_visible_at_50 {| flags := 0 |} (repeat c 50)
               (all_true_repeat c 50 eq_refl)).
    reflexivity.
  - rewrite (lead_turns_visible_at_50 {| flags := 0 |} (repeat c 49)
               (all_true_repeat c 49 eq_refl)).
    reflexivity.
Defined.

(** ** One update call: outcome, exceptions, what it depends on *)

(** The whole of [update]: the lead steps, then the lane values stored, or
    the exception of the lane step with the lane lines left alone. *)
Lemma update_outcome (CC_SP : CarControlSP) (CC : CarControl) (CS : CarState) (self : t) :
  update CC_SP CC CS self =
  match lane_values CS with
  | Ok (a, b) =>
      (set_right_laneline b (set_left_laneline a (lead_steps CC_SP CC CS self)), None)
  | Raise e => (lead_steps CC_SP CC CS self, Some e)
  end.
Proof.
  rewrite update_shape. cbv zeta. fold (lead_steps CC_SP CC CS self).
  rewrite update_lane_positioning_eq. unfold lane_values.
  destruct (lane_units (leftLanePosition CS)) as [l|]; [|reflexivity].
  destruct (lane_units (rightLanePosition CS)) as [r|]; [|reflexivity].
  cbn [mbind result_bind].
  match goal with |- context [lane_core ?a ?b ?c ?d ?e ?f ?g] =>
    destruct (lane_core a b c d e f g) as [[x y]|] end; reflexivity.
Qed.

(** The attributes after the lead steps. *)
Lemma lead_steps_fields (CC_SP : CarControlSP) (CC : CarControl) (CS : CarState) (self : t) :
  let pre := lead_steps CC_SP CC CS self in
  CP pre = CP self
  /\ lead_one pre = Some (leadOne CC_SP)
  /\ lead_two pre = Some (leadTwo CC_SP)
  /\ lead_distance pre = dRel (leadOne CC_SP)
  /\ lead_rel_speed pre = vRel (leadOne CC_SP)
  /\ lane_frame_counter pre = lane_frame_counter self
  /\ left_laneline pre = left_laneline self
  /\ right_laneline pre = right_laneline self.
Proof.
  unfold lead_steps, _update_target_distance, _update_object_gap,
    _update_lead_visible_hysteresis.
  repeat match goal with |- context [_hysteresis_update ?a ?b ?c ?d] =>
    destruct (_hysteresis_update a b c d) end.
  destruct self, (status (leadOne CC_SP)); cbn; auto 10.
Qed.

Lemma lane_write_keeps_raw (a b : Z) (self : t) :
  let self' := set_right_laneline b (set_left_laneline a self) in
  CP self' = CP self
  /\ lead_one self' = lead_one self
  /\ lead_two self' = lead_two self
  /\ lead_rel_speed self' = lead_rel_speed self
  /\ lane_frame_counter self' = lane_frame_counter self.
Proof. destruct self. cbn. auto. Qed.

Lemma lane_values_exceptions (CS : CarState) (e : exception) :
  lane_values CS = Raise e -> e = ValueError \/ e = OverflowError.
Proof.
  assert (R : forall x v, py_round x = Raise v -> v = ValueError \/ v = OverflowError).
  { intros x v. destruct x; cbn; intros [= <-]; auto. }
  assert (U : forall x v, lane_units x = Raise v -> v = ValueError \/ v = OverflowError).
  { intros x v. unfold lane_units. destruct (py_round _) eqn:E; cbn; [discriminate|].
    intros [= <-]. eapply R, E. }
  unfold lane_values.
  destruct (lane_units (leftLanePosition CS)) as [l|e1] eqn:E1; cbn [mbind result_bind];
    [|intros [= <-]; eapply U, E1].
  destruct (lane_units (rightLanePosition CS)) as [r|e2] eqn:E2; cbn [mbind result_bind];
    [|intros [= <-]; eapply U, E2].
  unfold lane_core. destruct (if _ && _ then _ else _) as [x y]. unfold renormalise.
  destruct (x + y =? 0) eqn:Z0; [discriminate|].
  unfold int_truediv. rewrite Z0.
  destruct (Float64.quotient x (x + y)); cbn [mbind result_bind];
    try (destruct (py_round _) eqn:E; cbn; [discriminate | intros [= <-]; eapply R, E]).
  intros [= <-]. auto.
Qed.

(** X8: [update] raises nothing but [ValueError] and [OverflowError]; in
    particular the division of the lane step never raises
    [ZeroDivisionError]. *)
Theorem update_exceptions (CC_SP : CarControlSP) (CC : CarControl) (CS : CarState)
    (self : t) :
  snd (update CC_SP CC CS self) <> Some ZeroDivisionError
  /\ (forall e, snd (update CC_SP CC CS self) = Some e -> e = ValueError \/ e = OverflowError).
Proof.
  rewrite update_outcome.
  destruct (lane_values CS) as [[a b]|e] eqn:E; cbn [snd].
  - split; [discriminate | intros e' [=]].
  - destruct (lane_values_exceptions CS e E) as [-> | ->];
      (split; [discriminate | intros e' [= <-]; auto]).
Qed.

Lemma lane_units_nan : lane_units S754_nan = Raise ValueError.
Proof. reflexivity. Qed.

Lemma lane_units_infinity (s : bool) : lane_units (S754_infinity s) = Raise OverflowError.
Proof. destruct s; vm_compute; reflexivity. Qed.

(** X9: whenever [update] raises, it has already stored this cycle's
    lead: the lead distance and relative speed are the new ones, the lane
    lines the old ones.  It raises [ValueError] when the left raw offset is
    a NaN and [OverflowError] when it is infinite; when the left offset
    scales without error, it raises [ValueError] on a NaN right offset and
    [OverflowError] on an infinite one (the left offset is rounded first). *)
Theorem update_raises_after_lead_steps (CC_SP : CarControlSP) (CC : CarControl)
    (CS : CarState) (self : t) :
  let self' := fst (update CC_SP CC CS self) in
  let exn := snd (update CC_SP CC CS self) in
  (forall e, exn = Some e ->
     lead_distance self' = dRel (leadOne CC_SP)
     /\ lead_rel_speed self' = vRel (leadOne CC_SP)
     /\ left_laneline self' = left_laneline self
     /\ right_laneline self' = right_laneline self)
  /\ (leftLanePosition CS = S754_nan -> exn = Some ValueError)
  /\ (forall s, leftLanePosition CS = S754_infinity s -> exn = Some OverflowError)
  /\ (forall l, lane_units (leftLanePosition CS) = Ok l ->
        rightLanePosition CS = S754_nan -> exn = Some ValueError)
  /\ (forall l s, lane_units (leftLanePosition CS) = Ok l ->
        rightLanePosition CS = S754_infinity s -> exn = Some OverflowError).
Proof.
  intros self' exn. subst self' exn. rewrite update_outcome.
  destruct (lead_steps_fields CC_SP CC CS self) as (_ & _ & _ & Hd & Hv & _ & Hl & Hr).
  split; [|split; [|split; [|split]]].
  - intros e. destruct (lane_values CS) as [[a b]|e']; cbn [fst snd]; [discriminate|]. auto.
  - intros E. unfold lane_values. rewrite E. reflexivity.
  - intros s E. unfold lane_values. rewrite E, lane_units_infinity. reflexivity.
  - intros l Ul E. unfold lane_values. rewrite Ul, E. reflexivity.
  - intros l s Ul E. unfold lane_values. rewrite Ul, E, lane_units_infinity. reflexivity.
Qed.

Lemma update_raises_after_lead_steps_witness :
  let '(CC_SP, CC, CS) :=
    cycle (Float64.of_Z 12) (Float64.of_Z 3) true (Float64.of_Z 10) 2
      (Float64.of_Z 1) S754_nan 3 3 in
  let self' := fst (update CC_SP CC CS (init {| flags := 0 |})) in
  lane_units (leftLanePosition CS) = Ok 9
  /\ snd (update CC_SP CC CS (init {| flags := 0 |})) = Some ValueError
  /\ lead_distance self' = dRel (leadOne CC_SP)
  /\ left_laneline self' = left_laneline (init {| flags := 0 |}).
Proof.
  cbv beta iota delta [cycle].
  assert (U : lane_units (Float64.of_Z 1) = Ok 9) by (vm_compute; reflexivity).
  split; [exact U|].
  match goal with |- context [update ?a ?b ?c ?d] =>
    destruct (update_raises_after_lead_steps a b c d) as (H1 & _ & _ & H4 & _) end.
  pose proof (H4 9 U eq_refl) as E.
  destruct (H1 ValueError E) as (H2 & _ & H3 & _).
  split; [exact E|]. split; [exact H2 | exact H3].
Defined.

(** X10: what one update call stores for the lead distance, the relative
    speed, the target distance and, when it completes, the lane lines, and
    whether it raises, depends on this cycle's inputs only, not on the
    controller it is called on. *)
Theorem update_memoryless (CC_SP : CarControlSP) (CC : CarControl) (CS : CarState)
    (s1 s2 : t) :
  let s1' := fst (update CC_SP CC CS s1) in
  let s2' := fst (update CC_SP CC CS s2) in
  snd (update CC_SP CC CS s1) = snd (update CC_SP CC CS s2)
  /\ lead_distance s1' = lead_distance s2'
  /\ lead_rel_speed s1' = lead_rel_speed s2'
  /\ target_distance s1' = target_distance s2'
  /\ (snd (update CC_SP CC CS s1) = None ->
      left_laneline s1' = left_laneline s2' /\ right_laneline s1' = right_laneline s2').
Proof.
  intros s1' s2'.
  assert (Ht : target_distance s1' = target_distance s2')
    by (subst s1' s2'; now rewrite !update_target_value).
  subst s1' s2'. rewrite !update_outcome.
  destruct (lead_steps_fields CC_SP CC CS s1) as (_ & _ & _ & Hd1 & Hv1 & _).
  destruct (lead_steps_fields CC_SP CC CS s2) as (_ & _ & _ & Hd2 & Hv2 & _).
  rewrite !update_outcome in Ht.
  destruct (lane_values CS) as [[a b]|e]; cbn [fst snd] in *.
  - destruct (lane_write_keeps a b (lead_steps CC_SP CC CS s1)) as (_&_&_&_&_& D1 &_& L1 & R1).
    destruct (lane_write_keeps a b (lead_steps CC_SP CC CS s2)) as (_&_&_&_&_& D2 &_& L2 & R2).
    destruct (lane_write_keeps_raw a b (lead_steps CC_SP CC CS s1)) as (_&_&_& V1 &_).
    destruct (lane_write_keeps_raw a b (lead_steps CC_SP CC CS s2)) as (_&_&_& V2 &_).
    repeat split; congruence.
  - repeat split; congruence.
Qed.

Lemma set_lead_two_commutes (v : option Lead) (self : t) :
  (forall x n, _update_target_distance x n (set_lead_two v self)
               = set_lead_two v (_update_target_distance x n self))
  /\ (forall d, _update_object_gap d (set_lead_two v self)
                = set_lead_two v (_update_object_gap d self))
  /\ (forall r, _update_lead_visible_hysteresis r (set_lead_two v self)
                = set_lead_two v (_update_lead_visible_hysteresis r self))
  /\ (forall x, set_lead_rel_speed x (set_lead_two v self)
                = set_lead_two v (set_lead_rel_speed x self))
  /\ (forall x, set_lead_distance x (set_lead_two v self)
                = set_lead_two v (set_lead_distance x self))
  /\ (forall a b, set_right_laneline b (set_left_laneline a (set_lead_two v self))
                  = set_lead_two v (set_right_laneline b (set_left_laneline a self)))
  /\ (forall w, set_lead_two v (set_lead_two w self) = set_lead_two v self).
Proof.
  destruct self. repeat split; intros; try reflexivity.
  - unfold _update_object_gap. cbn.
    match goal with |- context [_hysteresis_update ?a ?b ?c ?d] =>
      destruct (_hysteresis_update a b c d) end. reflexivity.
  - unfold _update_lead_visible_hysteresis. cbn.
    match goal with |- context [_hysteresis_update ?a ?b ?c ?d] =>
      destruct (_hysteresis_update a b c d) end. destruct r; reflexivity.
Qed.

(** X11: the secondary lead is only stored: with another [leadTwo] the
    call raises or completes alike and leaves the same controller but for
    the attribute [lead_two]. *)
Theorem lead_two_only_stored (CC_SP : CarControlSP) (CC : CarControl) (CS : CarState)
    (self : t) (other : Lead) :
  let CC_SP' := {| leadOne := leadOne CC_SP; leadTwo := other |} in
  snd (update CC_SP' CC CS self) = snd (update CC_SP CC CS self)
  /\ fst (update CC_SP' CC CS self)
     = set_lead_two (Some other) (fst (update CC_SP CC CS self)).
Proof.
  intros CC_SP'. rewrite !update_outcome.
  assert (E : lead_steps CC_SP' CC CS self
              = set_lead_two (Some other) (lead_steps CC_SP CC CS self)).
  { unfold lead_steps. subst CC_SP'. cbn [leadOne leadTwo].
    set (s0 := set_lead_one _ self).
    destruct (set_lead_two_commutes (Some other) s0) as (_ & _ & _ & _ & _ & _ & W).
    rewrite <- (W (Some (leadTwo CC_SP))).
    set (s1 := set_lead_two (Some (leadTwo CC_SP)) s0).
    destruct (set_lead_two_commutes (Some other) s1) as (_ & _ & _ & _ & D & _).
    rewrite D. set (s2 := set_lead_distance _ s1).
    destruct (set_lead_two_commutes (Some other) s2) as (_ & _ & _ & V & _).
    rewrite V. set (s3 := set_lead_rel_speed _ s2).
    destruct (set_lead_two_commutes (Some other) s3) as (_ & _ & H & _).
    rewrite H. set (s4 := _update_lead_visible_hysteresis _ s3).
    destruct (set_lead_two_commutes (Some other) s4) as (_ & G & _).
    rewrite G. set (s5 := _update_object_gap _ s4).
    destruct (set_lead_two_commutes (Some other) s5) as (T & _).
    now rewrite T. }
  rewrite E. destruct (lane_values CS) as [[a b]|e]; cbn [fst snd]; split; try reflexivity.
  now destruct (set_lead_two_commutes (Some other) (lead_steps CC_SP CC CS self))
    as (_ & _ & _ & _ & _ & L & _).
Qed.

(** ** Lane lines when one boundary is absent *)

Lemma eqb_zero_sign (x : float) (s : bool) :
  Float64.eqb x (S754_zero s) = Float64.eqb x (Float64.of_Z 0).
Proof. destruct x as [[]|[]| |[] m e]; reflexivity. Qed.

Lemma lane_units_zero (s : bool) : lane_units (S754_zero s) = Ok 0.
Proof. destruct s; vm_compute; reflexivity. Qed.

Lemma renormalise_fixes_ok : renormalise_fixes = true.
Proof. vm_compute. reflexivity. Qed.

Lemma renormalise_complement (x : Z) :
  0 <= x <= 30 -> renormalise x (30 - x) = Ok (x, 30 - x).
Proof.
  intros Hx. pose proof renormalise_fixes_ok as T. unfold renormalise_fixes in T.
  rewrite forallb_forall in T.
  assert (I : In x (seqZ 0 31)) by (apply list_elem_of_In, elem_of_seqZ; lia).
  specialize (T x I). destruct (renormalise x (30 - x)) as [[a b]|]; [|discriminate].
  apply andb_prop in T as [Ha Hb]. apply Z.eqb_eq in Ha, Hb. congruence.
Qed.

(** X12: when the left boundary is absent (raw offset 0) and the right
    one is present, not at the road edge and of filtered scaled value
    [v <= 30], the call completes with the lane lines [30 - v] and [v];
    symmetrically [v] and [30 - v] when the right boundary is absent.  The
    renormalisation leaves the detected side's value as it is. *)
Theorem one_boundary_absent (CC_SP : CarControlSP) (CC : CarControl) (CS : CarState)
    (self : t) (u : Z) :
  let self' := fst (update CC_SP CC CS self) in
  (Float64.eqb (leftLanePosition CS) (Float64.of_Z 0) = true ->
   Float64.eqb (rightLanePosition CS) (Float64.of_Z 0) = false ->
   Float64.eqb (rightLanePosition CS) (Float64.literal 20248375 7) = false ->
   lane_units (rightLanePosition CS) = Ok u ->
   trusted (rightLaneQuality CS) u <= 30 ->
   snd (update CC_SP CC CS self) = None
   /\ left_laneline self' = 30 - trusted (rightLaneQuality CS) u
   /\ right_laneline self' = trusted (rightLaneQuality CS) u)
  /\ (Float64.eqb (rightLanePosition CS) (Float64.of_Z 0) = true ->
      Float64.eqb (leftLanePosition CS) (Float64.of_Z 0) = false ->
      Float64.eqb (leftLanePosition CS) (Float64.neg (Float64.literal 20248375 7)) = false ->
      lane_units (leftLanePosition CS) = Ok u ->
      trusted (leftLaneQuality CS) u <= 30 ->
      snd (update CC_SP CC CS self) = None
      /\ left_laneline self' = trusted (leftLaneQuality CS) u
      /\ right_laneline self' = 30 - trusted (leftLaneQuality CS) u).
Proof.
  intros self'. subst self'. rewrite update_outcome. split.
  - intros Hl Hr He Hu Ht. apply eqb_zero in Hl as [s Hl].
    pose proof (trusted_nonneg (rightLaneQuality CS) u (lane_units_nonneg _ _ Hu)) as H0.
    assert (E : lane_values CS
                = Ok (30 - trusted (rightLaneQuality CS) u, trusted (rightLaneQuality CS) u)).
    { unfold lane_values. rewrite Hl, Hu, lane_units_zero. cbn [mbind result_bind].
      rewrite trusted_zero, Hr, He, andb_false_r.
      replace (Float64.eqb (S754_zero s) (Float64.neg (Float64.literal 20248375 7)))
        with false by (destruct s; reflexivity).
      replace (Float64.eqb (S754_zero s) (Float64.of_Z 0)) with true
        by (destruct s; reflexivity).
      unfold lane_core. cbv beta iota zeta.
      set (v := trusted (rightLaneQuality CS) u) in *.
      pose proof (renormalise_complement (30 - v) ltac:(lia)) as Q.
      replace (30 - (30 - v)) with v in Q by lia. exact Q. }
    rewrite E. cbn [fst snd].
    destruct (lane_write_keeps (30 - trusted (rightLaneQuality CS) u)
                (trusted (rightLaneQuality CS) u) (lead_steps CC_SP CC CS self))
      as (_&_&_&_&_&_&_& L & R). auto.
  - intros Hr Hl He Hu Ht. apply eqb_zero in Hr as [s Hr].
    pose proof (trusted_nonneg (leftLaneQuality CS) u (lane_units_nonneg _ _ Hu)) as H0.
    assert (E : lane_values CS
                = Ok (trusted (leftLaneQuality CS) u, 30 - trusted (leftLaneQuality CS) u)).
    { unfold lane_values. rewrite Hr, Hu, lane_units_zero. cbn [mbind result_bind].
      rewrite trusted_zero, He, !eqb_zero_sign, Hl.
      replace (Float64.eqb (S754_zero s) (Float64.literal 20248375 7))
        with false by (destruct s; reflexivity).
      replace (Float64.eqb (Float64.of_Z 0) (Float64.of_Z 0)) with true by reflexivity.
      unfold lane_core. cbv beta iota zeta. cbn [andb].
      apply renormalise_complement. lia. }
    rewrite E. cbn [fst snd].
    destruct (lane_write_keeps (trusted (leftLaneQuality CS) u)
                (30 - trusted (leftLaneQuality CS) u) (lead_steps CC_SP CC CS self))
      as (_&_&_&_&_&_&_& L & R). auto.
Qed.

Lemma one_boundary_absent_witness :
  let '(CC_SP, CC, CS) :=
    cycle (Float64.of_Z 12) (Float64.of_Z 0) true (Float64.of_Z 10) 2
      (Float64.of_Z 0) (Float64.literal 24 1) 0 3 in
  let self' := fst (update CC_SP CC CS (init {| flags := 0 |})) in
  lane_units (rightLanePosition CS) = Ok 21
  /\ trusted (rightLaneQuality CS) 21 <= 30
  /\ left_laneline self' = 30 - trusted (rightLaneQuality CS) 21
  /\ right_laneline self' = trusted (rightLaneQuality CS) 21.
Proof.
  cbv beta iota delta [cycle].
  split; [vm_compute; reflexivity|]. split; [vm_compute; discriminate|].
  match goal with |- context [update ?a ?b ?c ?d] =>
    destruct (proj1 (one_boundary_absent a b c d 21)) as (_ & L & R) end.
  - vm_compute; reflexivity.
  - vm_compute; reflexivity.
  - vm_compute; reflexivity.
  - vm_compute; reflexivity.
  - vm_compute; discriminate.
  - split; [exact L | exact R].
Defined.


(** ** The target distance on unusual inputs *)

(** X13: after every update call the target distance is a number, also
    when the ego speed or the lead distance is a NaN, and it never exceeds
    the stopping distance [max(10.0, ego_speed * factor)]; on a NaN ego
    speed the stopping distance is 10.0, and on a NaN lead distance the
    target distance is the stopping distance. *)
Theorem target_distance_robust (CC_SP : CarControlSP) (CC : CarControl) (CS : CarState)
    (self : t) :
  let stopping := stopping_distance (vEgo (out CS)) (leadDistanceBars (hudControl CC)) in
  let target := target_distance (fst (update CC_SP CC CS self)) in
  Float64.is_nan target = false
  /\ Float64.leb target stopping = true
  /\ (Float64.is_nan (vEgo (out CS)) = true -> stopping = Float64.literal 10 0)
  /\ (Float64.is_nan (dRel (leadOne CC_SP)) = true -> target = stopping).
Proof.
  intros stopping target. subst target. rewrite update_target_value.
  fold (stopping_distance (vEgo (out CS)) (leadDistanceBars (hudControl CC))).
  fold stopping.
  destruct (max_10_bounds (Float64.mul (vEgo (out CS))
             (ttc_factor_spec (leadDistanceBars (hudControl CC))))) as [Hnan Hge].
  fold (stopping_distance (vEgo (out CS)) (leadDistanceBars (hudControl CC))) in Hnan, Hge.
  fold stopping in Hnan, Hge.
  set (d := dRel (leadOne CC_SP)).
  assert (Hmin : Float64.is_nan (Float64.min stopping d) = false
                 /\ Float64.leb (Float64.min stopping d) stopping = true).
  { unfold Float64.min. destruct (Float64.ltb d stopping) eqn:E.
    - split; [apply (ltb_not_nan _ _ E) | now apply ltb_leb].
    - split; [assumption | now apply leb_refl]. }
  split; [|split; [|split]].
  - destruct (Float64.eqb d (Float64.of_Z 0)); [assumption | apply Hmin].
  - destruct (Float64.eqb d (Float64.of_Z 0)); [now apply leb_refl | apply Hmin].
  - intros Hv. subst stopping. unfold stopping_distance.
    destruct (vEgo (out CS)); try discriminate. reflexivity.
  - intros Hd. destruct d; try discriminate. reflexivity.
Qed.

Lemma target_distance_robust_witness :
  let '(CC_SP, CC, CS) :=
    cycle S754_nan (Float64.of_Z 0) true S754_nan 3
      (Float64.of_Z 1) (Float64.literal 24 1) 3 3 in
  Float64.is_nan (vEgo (out CS)) = true
  /\ stopping_distance (vEgo (out CS)) (leadDistanceBars (hudControl CC))
     = Float64.literal 10 0.
Proof.
  cbv beta iota delta [cycle]. split; [reflexivity|].
  match goal with |- stopping_distance (vEgo (out ?cs)) (leadDistanceBars (hudControl ?cc)) = _ =>
    apply (proj1 (proj2 (proj2
      (target_distance_robust
         {| leadOne := {| dRel := S754_nan; vRel := Float64.of_Z 0; status := true |};
            leadTwo := {| dRel := S754_nan; vRel := Float64.of_Z 0; status := true |} |}
         cc cs (init {| flags := 0 |}))))) end.
  reflexivity.
Defined.

(** ** The two encoders side by side *)

(** X14: on a snapshot whose visibility flag says what its lead distance
    says (visible exactly when the distance is not 0), the CAN and the
    CAN-FD encoder give the same [object_rel_gap] unless there is a lead
    whose relative speed is below 0 but not below -0.2; there CAN gives 1
    and CAN-FD gives 2. *)
Theorem encoders_agree (gap : Z) (dist rel target : float) (l r : option Z) :
  let visible := negb (Float64.eqb dist (Float64.of_Z 0)) in
  let can := LeadData.object_rel_gap
               (LeadData.init CanLeadData gap dist rel visible target l r) in
  let canfd := LeadData.object_rel_gap
                 (LeadData.init CanFdLeadData gap dist rel visible target l r) in
  let between :=
    negb (Float64.eqb dist (Float64.of_Z 0))
    && Float64.ltb rel (Float64.of_Z 0)
    && negb (Float64.ltb rel (Float64.neg (Float64.literal 2 1))) in
  (between = false -> can = canfd)
  /\ (between = true -> can = 1 /\ canfd = 2).
Proof.
  intros visible can canfd between. subst visible can canfd between.
  unfold LeadData.object_rel_gap.
  cbn [LeadData.cls LeadData.init LeadData.lead_distance LeadData.lead_rel_speed
       LeadData.lead_visible].
  rewrite negb_involutive.
  destruct (Float64.eqb dist (Float64.of_Z 0)); cbn [negb andb]; [split; [auto | discriminate]|].
  destruct (Float64.ltb rel (Float64.neg (Float64.literal 2 1))) eqn:E1.
  - assert (E0 : Float64.ltb rel (Float64.of_Z 0) = true)
      by (apply (ltb_leb_trans _ _ _ E1); reflexivity).
    rewrite E0. cbn. split; [auto | discriminate].
  - destruct (Float64.ltb rel (Float64.of_Z 0)); cbn; split; auto; discriminate.
Qed.

Lemma encoders_agree_witness :
  let rel := Float64.neg (Float64.literal 5 1) in
  let dist := Float64.of_Z 12 in
  LeadData.object_rel_gap
    (LeadData.init CanLeadData 2 dist rel (negb (Float64.eqb dist (Float64.of_Z 0)))
       (Float64.of_Z 12) None None)
  = LeadData.object_rel_gap
      (LeadData.init CanFdLeadData 2 dist rel (negb (Float64.eqb dist (Float64.of_Z 0)))
         (Float64.of_Z 12) None None).
Proof.
  intros rel dist.
  apply (proj1 (encoders_agree 2 dist rel (Float64.of_Z 12) None None)). reflexivity.
Defined.

(** ** The gap bucket as a function of the distance *)

Lemma leb_ltb_trans (x y z : float) :
  Float64.leb x y = true -> Float64.ltb y z = true -> Float64.ltb x z = true.
Proof.
  unfold Float64.ltb, Float64.leb, SFltb, SFleb.
  destruct x as [sx|sx| |sx mx ex], y as [sy|sy| |sy my ey], z as [sz|sz| |sz mz ez]; simpl;
    try destruct sx; try destruct sy; try destruct sz; simpl;
    try (intros; discriminate); try (intros; reflexivity);
    change (Pos.compare_cont Eq ?a ?b) with (Pos.compare a b);
    destruct (Z.compare_spec ex ey), (Z.compare_spec ey ez), (Z.compare_spec ex ez);
    try lia; subst;
    try (intros; discriminate); try (intros; reflexivity);
    destruct (Pos.compare_spec mx my), (Pos.compare_spec my mz), (Pos.compare_spec mx mz);
    simpl; try lia; try (intros; discriminate); try (intros; reflexivity).
Qed.

(** X15: the pre-debounce bucket does not decrease with the distance: for
    [d1 <= d2] with [d2] not 0, the bucket of [d1] is at most that of
    [d2]. *)
Theorem new_gap_monotone (d1 d2 : float) :
  Float64.eqb d2 (Float64.of_Z 0) = false ->
  Float64.leb d1 d2 = true ->
  new_gap (Some d1) <= new_gap (Some d2).
Proof.
  intros H2 Hle. unfold new_gap. rewrite H2.
  assert (T : forall k, Float64.ltb d2 k = true -> Float64.ltb d1 k = true)
    by (intros k; apply leb_ltb_trans, Hle).
  destruct (Float64.eqb d1 (Float64.of_Z 0)).
  - repeat match goal with |- context [if ?b then _ else _] => destruct b end; lia.
  - destruct (Float64.ltb d2 (Float64.of_Z 20)) eqn:E20; [rewrite (T _ E20); lia|].
    destruct (Float64.ltb d2 (Float64.of_Z 25)) eqn:E25;
      [rewrite (T _ E25); destruct (Float64.ltb d1 (Float64.of_Z 20)); lia|].
    destruct (Float64.ltb d2 (Float64.of_Z 30)) eqn:E30;
      [rewrite (T _ E30); destruct (Float64.ltb d1 (Float64.of_Z 20)),
         (Float64.ltb d1 (Float64.of_Z 25)); lia|].
    repeat match goal with |- context [if ?b then _ else _] => destruct b end; lia.
Qed.

Lemma new_gap_monotone_witness :
  new_gap (Some (Float64.literal 19999 3)) <= new_gap (Some (Float64.of_Z 27)).
Proof. apply new_gap_monotone; reflexivity. Defined.

(** ** From the controller to the display *)

Lemma update_all_CP (self : t) (cycles : list (CarControlSP * CarControl * CarState)) :
  CP (update_all self cycles) = CP self.
Proof.
  induction cycles as [|c cycles IH] using rev_ind; [reflexivity|].
  rewrite update_all_snoc. destruct c as [[CC_SP CC] CS]. unfold update_cycle.
  rewrite update_outcome.
  destruct (lead_steps_fields CC_SP CC CS (update_all self cycles)) as (Hcp & _).
  destruct (lane_values CS) as [[a b]|e]; cbn [fst].
  - destruct (lane_write_keeps_raw a b (lead_steps CC_SP CC CS (update_all self cycles)))
      as (Hcp' & _). congruence.
  - congruence.
Qed.

Lemma update_lead_distance (CC_SP : CarControlSP) (CC : CarControl) (CS : CarState)
    (self : t) :
  CP (fst (update CC_SP CC CS self)) = CP self
  /\ lead_distance (fst (update CC_SP CC CS self)) = dRel (leadOne CC_SP)
  /\ lead_rel_speed (fst (update CC_SP CC CS self)) = vRel (leadOne CC_SP).
Proof.
  rewrite update_outcome.
  destruct (lead_steps_fields CC_SP CC CS self) as (Hcp & _ & _ & Hd & Hv & _).
  destruct (lane_values CS) as [[a b]|e]; cbn [fst]; [|auto].
  destruct (lane_write_keeps a b (lead_steps CC_SP CC CS self)) as (_&_&_&_&_& D &_).
  destruct (lane_write_keeps_raw a b (lead_steps CC_SP CC CS self)) as (C &_&_& V &_).
  repeat split; congruence.
Qed.

(** X16: on CAN-FD the displayed relative gap is debounced with the
    visibility: a fresh controller shows 0 for its first 49 update calls
    whatever the inputs.  On CAN it follows the lead distance of the
    same cycle: after any update call it is 0 exactly when that distance
    equals 0. *)
Theorem object_rel_gap_latency (HyundaiFlags_CANFD : Z) :
  (forall (CP : CarParams) (cycles : list (CarControlSP * CarControl * CarState)),
     Z.land (flags CP) HyundaiFlags_CANFD <> 0 ->
     (length cycles < 50)%nat ->
     LeadData.object_rel_gap (lead_data HyundaiFlags_CANFD (update_all (init CP) cycles)) = 0)
  /\ (forall (CC_SP : CarControlSP) (CC : CarControl) (CS : CarState) (self : t),
        Z.land (flags (CP self)) HyundaiFlags_CANFD = 0 ->
        let gap := LeadData.object_rel_gap
                     (lead_data HyundaiFlags_CANFD (fst (update CC_SP CC CS self))) in
        (Float64.eqb (dRel (leadOne CC_SP)) (Float64.of_Z 0) = true -> gap = 0)
        /\ (Float64.eqb (dRel (leadOne CC_SP)) (Float64.of_Z 0) = false ->
            gap = 1 \/ gap = 2)).
Proof.
  split.
  - intros CP0 cycles Hf Hlen. unfold lead_data. rewrite update_all_CP.
    change (CP (init CP0)) with CP0.
    destruct (Z.eqb_spec (Z.land (flags CP0) HyundaiFlags_CANFD) 0); [contradiction|].
    cbn [negb]. unfold LeadData.object_rel_gap.
    cbn [LeadData.cls LeadData.init LeadData.lead_visible].
    now rewrite (proj1 (fresh_latency_aux CP0 cycles Hlen)).
  - intros CC_SP CC CS self Hf gap. subst gap. unfold lead_data.
    destruct (update_lead_distance CC_SP CC CS self) as (Hcp & Hd & _).
    rewrite Hcp, Hf. cbn [Z.eqb negb]. unfold LeadData.object_rel_gap.
    cbn [LeadData.cls LeadData.init LeadData.lead_distance LeadData.lead_rel_speed].
    rewrite Hd. split; intros E; rewrite E; [reflexivity|].
    destruct (Float64.ltb _ _); auto.
Qed.

Lemma object_rel_gap_latency_witness :
  let c := cycle (Float64.of_Z 12) (Float64.neg (Float64.of_Z 1)) true (Float64.of_Z 10) 2
             (Float64.of_Z 1) (Float64.literal 24 1) 3 3 in
  Z.land (flags {| flags := 1 |}) 1 <> 0
  /\ LeadData.object_rel_gap (lead_data 1 (update_all (init {| flags := 1 |}) [c; c])) = 0.
Proof.
  intros c. assert (F : Z.land (flags {| flags := 1 |}) 1 <> 0) by (cbn; discriminate).
  split; [exact F|].
  apply (proj1 (object_rel_gap_latency 1) {| flags := 1 |} [c; c] F). cbn. lia.
Defined.

(** ** The lane step: quality filter and road-edge sentinels *)

Lemma eqb_finite_eq (x : float) (s : bool) (m : positive) (e : Z) :
  Float64.eqb x (S754_finite s m e) = true -> x = S754_finite s m e.
Proof.
  unfold Float64.eqb, SFeqb.
  destruct x as [sx|sx| |sx mx ex]; simpl; try destruct sx; try destruct s;
    try discriminate;
    destruct (Z.compare_spec ex e); try discriminate; subst;
    change (Pos.compare_cont Eq mx m) with (Pos.compare mx m);
    destruct (Pos.compare_spec mx m); try discriminate; subst; reflexivity.
Qed.

(** The quotient of a positive integer by itself is 1.0. *)
Lemma quotient_self (x : Z) : 0 < x -> Float64.quotient x x = Float64.of_Z 1.
Proof.
  intros Hx. unfold Float64.quotient.
  destruct (Z.ltb_spec x 0); [lia|]. cbn [xorb].
  destruct x as [|p|p]; [lia| |lia]. rewrite Z.abs_eq by lia.
  unfold SFdiv_core_binary. rewrite !Z.add_0_r, !Z.sub_diag.
  change (Z.min (fexp Float64.prec Float64.emax 0) 0) with (-53).
  change (0 - -53) with 53. cbv iota.
  rewrite Z.shiftl_mul_pow2 by lia.
  assert (D : Z.div_eucl (Z.pos p * 2 ^ 53) (Z.pos p) = (2 ^ 53, 0)).
  { pose proof (Z_div_mod (Z.pos p * 2 ^ 53) (Z.pos p) ltac:(lia)) as HD.
    destruct (Z.div_eucl (Z.pos p * 2 ^ 53) (Z.pos p)) as [q r]. destruct HD as [H1 H2].
    assert (q = 2 ^ 53) by nia. assert (r = 0) by nia. congruence. }
  rewrite D.
  assert (L : new_location (Z.pos p) 0 = loc_Exact).
  { unfold new_location, new_location_even, new_location_odd.
    destruct (Z.even (Z.pos p)); reflexivity. }
  rewrite L. vm_compute. reflexivity.
Qed.

Lemma renormalise_left_only (x : Z) : 0 < x -> renormalise x 0 = Ok (30, 0).
Proof.
  intros Hx. unfold renormalise, int_truediv. rewrite Z.add_0_r.
  destruct (Z.eqb_spec x 0); [lia|]. rewrite quotient_self by assumption.
  vm_compute. reflexivity.
Qed.

Lemma renormalise_right_only (y : Z) : 0 < y -> renormalise 0 y = Ok (0, 30).
Proof.
  intros Hy. unfold renormalise, int_truediv. rewrite Z.add_0_l.
  destruct (Z.eqb_spec y 0); [lia|]. unfold Float64.quotient.
  destruct (Z.ltb_spec y 0); [lia|]. reflexivity.
Qed.

(** X17: in a cycle without substitution (no raw offset is 0 or at its
    road-edge sentinel) in which both raw offsets scale without error
    ([round] raises on a NaN or infinite offset before the quality filter,
    whatever the quality), the call completes and a boundary of quality
    other than 2 and 3 counts as 0: with both boundaries so the lane lines
    are 15 and 15; with only the left one so, and a right value above 0,
    they are 0 and 30; with only the right one so, and a left value above
    0, they are 30 and 0. *)
Theorem untrusted_boundaries (CC_SP : CarControlSP) (CC : CarControl) (CS : CarState)
    (self : t) (l r : Z) :
  Float64.eqb (leftLanePosition CS) (Float64.of_Z 0) = false ->
  Float64.eqb (rightLanePosition CS) (Float64.of_Z 0) = false ->
  Float64.eqb (leftLanePosition CS) (Float64.neg (Float64.literal 20248375 7)) = false ->
  Float64.eqb (rightLanePosition CS) (Float64.literal 20248375 7) = false ->
  lane_units (leftLanePosition CS) = Ok l ->
  lane_units (rightLanePosition CS) = Ok r ->
  let self' := fst (update CC_SP CC CS self) in
  let lanes := (left_laneline self', right_laneline self') in
  snd (update CC_SP CC CS self) = None
  /\ (in_2_3 (leftLaneQuality CS) = false -> in_2_3 (rightLaneQuality CS) = false ->
      lanes = (15, 15))
  /\ (in_2_3 (leftLaneQuality CS) = false -> in_2_3 (rightLaneQuality CS) = true ->
      0 < r -> lanes = (0, 30))
  /\ (in_2_3 (leftLaneQuality CS) = true -> in_2_3 (rightLaneQuality CS) = false ->
      0 < l -> lanes = (30, 0)).
Proof.
  intros Zl Zr El Er Ul Ur self' lanes. subst lanes self'. rewrite update_outcome.
  assert (E : lane_values CS
              = renormalise (trusted (leftLaneQuality CS) l) (trusted (rightLaneQuality CS) r)).
  { unfold lane_values. rewrite Ul, Ur. cbn [mbind result_bind].
    rewrite Zl, Zr, El, Er, andb_false_r. reflexivity. }
  pose proof (trusted_nonneg (leftLaneQuality CS) l (lane_units_nonneg _ _ Ul)) as Bl.
  pose proof (trusted_nonneg (rightLaneQuality CS) r (lane_units_nonneg _ _ Ur)) as Br.
  destruct (renormalise_range _ _ Bl Br) as (a & b & Hab & _).
  rewrite E, Hab. cbn [fst snd].
  destruct (lane_write_keeps a b (lead_steps CC_SP CC CS self)) as (_&_&_&_&_&_&_& -> & ->).
  unfold trusted in Hab.
  split; [reflexivity|]. split; [|split].
  - intros Ql Qr. rewrite Ql, Qr in Hab. cbn [negb] in Hab.
    assert (R0 : renormalise 0 0 = Ok (15, 15)) by reflexivity.
    rewrite R0 in Hab. congruence.
  - intros Ql Qr Hr. rewrite Ql, Qr in Hab. cbn [negb] in Hab.
    rewrite renormalise_right_only in Hab by assumption. congruence.
  - intros Ql Qr Hl. rewrite Ql, Qr in Hab. cbn [negb] in Hab.
    rewrite renormalise_left_only in Hab by assumption. congruence.
Qed.

Lemma untrusted_boundaries_witness :
  let '(CC_SP, CC, CS) :=
    cycle (Float64.of_Z 12) (Float64.of_Z 0) true (Float64.of_Z 10) 2
      (Float64.of_Z 1) (Float64.literal 24 1) 1 3 in
  let self' := fst (update CC_SP CC CS (init {| flags := 0 |})) in
  lane_units (leftLanePosition CS) = Ok 9
  /\ lane_units (rightLanePosition CS) = Ok 21
  /\ (left_laneline self', right_laneline self') = (0, 30).
Proof.
  cbv beta iota delta [cycle].
  assert (U9 : lane_units (Float64.of_Z 1) = Ok 9) by (vm_compute; reflexivity).
  assert (U21 : lane_units (Float64.literal 24 1) = Ok 21) by (vm_compute; reflexivity).
  split; [exact U9|]. split; [exact U21|].
  match goal with |- context [update ?a ?b ?c ?d] =>
    apply (proj1 (proj2 (proj2 (untrusted_boundaries a b c d 9 21
             eq_refl eq_refl eq_refl eq_refl U9 U21)))) end;
    (reflexivity || lia).
Defined.

(** X18: a left offset at the left road-edge sentinel takes what the
    right one leaves: when the right offset is not 0 and scales without
    error to a filtered value [v <= 30], the lane lines are [30 - v] and
    [v], whatever the quality of the left boundary and also when the right
    offset is at its own sentinel.  A right offset at the right sentinel,
    with a left offset that is neither 0 nor at the left sentinel and
    scales without error to a filtered value [v <= 30], gives [v] and
    [30 - v]. *)
Theorem road_edge_sentinel (CC_SP : CarControlSP) (CC : CarControl) (CS : CarState)
    (self : t) (u : Z) :
  let self' := fst (update CC_SP CC CS self) in
  (Float64.eqb (leftLanePosition CS) (Float64.neg (Float64.literal 20248375 7)) = true ->
   Float64.eqb (rightLanePosition CS) (Float64.of_Z 0) = false ->
   lane_units (rightLanePosition CS) = Ok u ->
   trusted (rightLaneQuality CS) u <= 30 ->
   snd (update CC_SP CC CS self) = None
   /\ left_laneline self' = 30 - trusted (rightLaneQuality CS) u
   /\ right_laneline self' = trusted (rightLaneQuality CS) u)
  /\ (Float64.eqb (rightLanePosition CS) (Float64.literal 20248375 7) = true ->
      Float64.eqb (leftLanePosition CS) (Float64.of_Z 0) = false ->
      Float64.eqb (leftLanePosition CS) (Float64.neg (Float64.literal 20248375 7)) = false ->
      lane_units (leftLanePosition CS) = Ok u ->
      trusted (leftLaneQuality CS) u <= 30 ->
      snd (update CC_SP CC CS self) = None
      /\ left_laneline self' = trusted (leftLaneQuality CS) u
      /\ right_laneline self' = 30 - trusted (leftLaneQuality CS) u).
Proof.
  intros self'. subst self'. rewrite update_outcome.
  assert (SL : Float64.neg (Float64.literal 20248375 7)
               = S754_finite true 4559528705242903 (-51)) by (vm_compute; reflexivity).
  assert (SR : Float64.literal 20248375 7
               = S754_finite false 4559528705242903 (-51)) by (vm_compute; reflexivity).
  split.
  - intros He Zr Hu Ht. rewrite SL in He. apply eqb_finite_eq in He.
    pose proof (trusted_nonneg (rightLaneQuality CS) u (lane_units_nonneg _ _ Hu)) as H0.
    assert (E : lane_values CS
                = Ok (30 - trusted (rightLaneQuality CS) u, trusted (rightLaneQuality CS) u)).
    { unfold lane_values. rewrite He, Hu, Zr, andb_false_r.
      change (lane_units (S754_finite true 4559528705242903 (-51))) with (Ok 18 : result Z).
      cbn [mbind result_bind]. rewrite SL.
      change (Float64.eqb (S754_finite true 4559528705242903 (-51))
                (S754_finite true 4559528705242903 (-51))) with true.
      change (Float64.eqb (S754_finite true 4559528705242903 (-51)) (Float64.of_Z 0))
        with false.
      unfold lane_core. cbv beta iota zeta.
      set (v := trusted (rightLaneQuality CS) u) in *.
      pose proof (renormalise_complement (30 - v) ltac:(lia)) as Q.
      replace (30 - (30 - v)) with v in Q by lia.
      destruct (Float64.eqb (rightLanePosition CS) (Float64.literal 20248375 7));
        [replace (30 - (30 - v)) with v by lia|]; exact Q. }
    rewrite E. cbn [fst snd].
    destruct (lane_write_keeps (30 - trusted (rightLaneQuality CS) u)
                (trusted (rightLaneQuality CS) u) (lead_steps CC_SP CC CS self))
      as (_&_&_&_&_&_&_& L & R). auto.
  - intros He Zl El Hu Ht. rewrite SR in He. apply eqb_finite_eq in He.
    pose proof (trusted_nonneg (leftLaneQuality CS) u (lane_units_nonneg _ _ Hu)) as H0.
    assert (E : lane_values CS
                = Ok (trusted (leftLaneQuality CS) u, 30 - trusted (leftLaneQuality CS) u)).
    { unfold lane_values. rewrite Hu, Zl, El. rewrite He.
      change (lane_units (S754_finite false 4559528705242903 (-51))) with (Ok 18 : result Z).
      cbn [mbind result_bind]. rewrite SR.
      change (Float64.eqb (S754_finite false 4559528705242903 (-51))
                (S754_finite false 4559528705242903 (-51))) with true.
      change (Float64.eqb (S754_finite false 4559528705242903 (-51)) (Float64.of_Z 0))
        with false.
      rewrite andb_false_r. unfold lane_core. cbv beta iota zeta.
      apply renormalise_complement. lia. }
    rewrite E. cbn [fst snd].
    destruct (lane_write_keeps (trusted (leftLaneQuality CS) u)
                (30 - trusted (leftLaneQuality CS) u) (lead_steps CC_SP CC CS self))
      as (_&_&_&_&_&_&_& L & R). auto.
Qed.

Lemma road_edge_sentinel_witness :
  let '(CC_SP, CC, CS) :=
    cycle (Float64.of_Z 12) (Float64.of_Z 0) true (Float64.of_Z 10) 2
      (Float64.neg (Float64.literal 20248375 7)) (Float64.literal 24 1) 3 3 in
  let self' := fst (update CC_SP CC CS (init {| flags := 0 |})) in
  lane_units (rightLanePosition CS) = Ok 21
  /\ trusted (rightLaneQuality CS) 21 <= 30
  /\ left_laneline self' = 30 - trusted (rightLaneQuality CS) 21
  /\ right_laneline self' = trusted (rightLaneQuality CS) 21.
Proof.
  cbv beta iota delta [cycle].
  assert (U21 : lane_units (Float64.literal 24 1) = Ok 21) by (vm_compute; reflexivity).
  assert (T : trusted 3 21 <= 30) by (vm_compute; discriminate).
  split; [exact U21|]. split; [exact T|].
  match goal with |- context [update ?a ?b ?c ?d] =>
    destruct (proj1 (road_edge_sentinel a b c d 21) eq_refl eq_refl U21 T)
      as (_ & L & R) end.
  split; [exact L | exact R].
Defined.

(** ** Adoption of a steady gap bucket *)

Lemma hysteresis_run_constant {A : Type} `{PyEq A} (T : Z) (current new_value : A) (n : nat) :
  1 <= T -> py_eq new_value current = false -> py_eq new_value new_value = true ->
  hysteresis_run T (current, 0) (repeat new_value n)
  = if (Z.of_nat n <? T) then (current, Z.of_nat n) else (new_value, 0).
Proof.
  intros HT Hne Hrefl. induction n as [|n IH].
  - destruct (Z.ltb_spec (Z.of_nat 0) T); [reflexivity | cbn in *; lia].
  - assert (E : repeat new_value (S n) = repeat new_value n ++ [new_value])
      by apply repeat_cons.
    rewrite E, hysteresis_run_snoc, IH.
    destruct (Z.ltb_spec (Z.of_nat n) T), (Z.ltb_spec (Z.of_nat (S n)) T); try lia.
    + cbn [fst snd]. rewrite hysteresis_below by (assumption || lia). f_equal. lia.
    + cbn [fst snd]. now rewrite hysteresis_adopt by (assumption || lia).
    + cbn [fst snd]. now rewrite hysteresis_same.
Qed.

Lemma gaps_constant (g : Z) (cycles : list (CarControlSP * CarControl * CarState)) :
  Forall (fun c => gap_of c = g) cycles ->
  map gap_of cycles = repeat g (length cycles).
Proof.
  induction 1 as [|c cycles Hc _ IH]; [reflexivity|].
  cbn [map length repeat]. now rewrite Hc, IH.
Qed.

(** X19: when the lead distance stays in one bucket [g] other than 0 from
    the first cycle on, a fresh controller shows the bucket 0 for 49
    update calls and [g] from the 50th on. *)
Theorem gap_adopted_at_50 (CP : CarParams) (g : Z)
    (cycles : list (CarControlSP * CarControl * CarState)) :
  g <> 0 ->
  Forall (fun c => gap_of c = g) cycles ->
  object_gap (update_all (init CP) cycles)
  = if (Z.of_nat (length cycles) <? 50) then 0 else g.
Proof.
  intros Hg Hall. pose proof (gap_run_aux (init CP) cycles) as E. cbv zeta in E.
  apply (f_equal fst) in E. cbn [fst] in E. rewrite E.
  change (object_gap (init CP), gap_counter (init CP)) with (0, 0).
  rewrite (gaps_constant g cycles Hall), hysteresis_run_constant.
  - destruct (Z.ltb_spec (Z.of_nat (length cycles)) 50); reflexivity.
  - lia.
  - apply Z.eqb_neq. exact Hg.
  - apply Z.eqb_refl.
Qed.

Lemma gap_adopted_at_50_witness :
  let c := cycle (Float64.of_Z 22) (Float64.of_Z 0) true (Float64.of_Z 10) 2
             (Float64.of_Z 1) (Float64.literal 24 1) 3 3 in
  object_gap (update_all (init {| flags := 0 |}) (repeat c 50)) = 3.
Proof.
  intros c.
  assert (Hall : Forall (fun c => gap_of c = 3) (repeat c 50)).
  { assert (Hc : gap_of c = 3) by reflexivity.
    generalize 50%nat. intros n. induction n; cbn; constructor; assumption. }
  rewrite (gap_adopted_at_50 {| flags := 0 |} 3 (repeat c 50) ltac:(discriminate) Hall).
  reflexivity.
Defined.

End ControllerRuns.
